(** * Road follower training notebook: sampler, split and checkpoint loop

    A shallow embedding of [road_following/train_model.ipynb]:
    - the filename decoders [get_x] and [get_y];
    - the dataset class [XYDataset] ([__init__], [__len__], [__getitem__]);
    - the 90/10 split ([num_test], [random_split]);
    - the two loaders and the training loop that keeps the best checkpoint.

    Python floats are IEEE binary64 values and are modelled by the kernel's
    primitive floats; a float32 tensor element is a binary64 value that has
    been rounded to 24 bits of precision ([f32]).  Library calls whose body
    is not part of the notebook (PIL, torchvision's colour jitter and resize,
    the forward and backward passes) are fields of the classes [Vision],
    [Trainer] and [Net]. *)

From Stdlib Require Import ZArith Floats List String Ascii Lia Bool.
From Stdlib Require Import Permutation FinFun.
Import ListNotations.
Open Scope string_scope.
Open Scope Z_scope.
#[local] Set Warnings "-inexact-float".
#[local] Set Warnings "-abstract-large-number".

(** ** Python results *)

Inductive exn : Type :=
| ValueError
| IndexError
| OverflowError
| OSError
| RuntimeError
| ZeroDivisionError.

Inductive result (A : Type) : Type :=
| Ok (a : A)
| Raise (e : exn).
Arguments Ok {A} a.
Arguments Raise {A} e.

Definition bind {A B : Type} (r : result A) (k : A -> result B) : result B :=
  match r with
  | Ok a => k a
  | Raise e => Raise e
  end.

Notation "x <- r ;; k" := (bind r (fun x => k))
  (at level 61, r at next level, right associativity).

(** ** Python strings: slices and [int(str)] *)

(** [s[lo:hi]] for non-negative bounds; a slice of a short string is short
    or empty, never an error. *)
Definition slice (lo hi : nat) (s : string) : string :=
  substring lo (hi - lo) s.

Definition is_digit (c : ascii) : bool :=
  ((48 <=? nat_of_ascii c) && (nat_of_ascii c <=? 57))%nat.

(** The characters [int] skips around a literal, a character being a
    code point below 256: tab to carriage return and the space, and the
    two other white spaces of that range, U+0085 and U+00A0.  The
    separators 0x1c to 0x1f are not among them. *)
Definition is_space (c : ascii) : bool :=
  let n := nat_of_ascii c in
  (((9 <=? n) && (n <=? 13)) || (n =? 32) || (n =? 133) || (n =? 160))%nat.

Definition digit_val (c : ascii) : Z := Z.of_nat (nat_of_ascii c) - 48.

Fixpoint lstrip (s : string) : string :=
  match s with
  | String c r => if is_space c then lstrip r else s
  | EmptyString => EmptyString
  end.

Fixpoint rstrip (s : string) : string :=
  match s with
  | String c r =>
      match rstrip r with
      | EmptyString => if is_space c then EmptyString else String c EmptyString
      | r' => String c r'
      end
  | EmptyString => EmptyString
  end.

Definition strip (s : string) : string := rstrip (lstrip s).

(** Decimal digits, with single underscores allowed between two digits. *)
Fixpoint parse_digits (s : string) (acc : Z) (after_digit : bool) : option Z :=
  match s with
  | EmptyString => if after_digit then Some acc else None
  | String c r =>
      if is_digit c then parse_digits r (10 * acc + digit_val c) true
      else if Ascii.eqb c "_" && after_digit then parse_digits r acc false
      else None
  end.

(** [int(s)] in base ten: surrounding white space, one optional sign, then
    the digits; anything else is a [ValueError]. *)
Definition py_int (s : string) : result Z :=
  let of_opt (o : option Z) :=
    match o with Some z => Ok z | None => Raise ValueError end in
  match strip s with
  | String "+" r => of_opt (parse_digits r 0 false)
  | String "-" r => of_opt (option_map Z.opp (parse_digits r 0 false))
  | t => of_opt (parse_digits t 0 false)
  end.

(** A non-empty string of decimal digits, and the number it writes. *)
Fixpoint all_digits (s : string) : bool :=
  match s with
  | EmptyString => true
  | String c r => is_digit c && all_digits r
  end.

Definition is_digits (s : string) : bool :=
  match s with
  | EmptyString => false
  | _ => all_digits s
  end.

Fixpoint decimal_from (acc : Z) (s : string) : Z :=
  match s with
  | EmptyString => acc
  | String c r => decimal_from (10 * acc + digit_val c) r
  end.

Definition decimal (s : string) : Z := decimal_from 0 s.

(** ** Python lists *)

(** [l[i]]: a negative index counts from the end; outside the list it is an
    [IndexError]. *)
Definition py_index {A : Type} (l : list A) (i : Z) : result A :=
  let n := Z.of_nat (List.length l) in
  let j := if i <? 0 then i + n else i in
  if (0 <=? j) && (j <? n) then
    match nth_error l (Z.to_nat j) with
    | Some a => Ok a
    | None => Raise IndexError
    end
  else Raise IndexError.

(** [l[lo:hi]]: negative bounds count from the end, and every bound is
    clamped to the list. *)
Definition clamp_index (n i : Z) : nat :=
  Z.to_nat (if i <? 0 then Z.max (i + n) 0 else Z.min i n).

Definition py_slice {A : Type} (l : list A) (lo hi : Z) : list A :=
  let n := Z.of_nat (List.length l) in
  let a := clamp_index n lo in
  let b := clamp_index n hi in
  firstn (b - a) (skipn a l).

(** ** Floats *)

(** The binary64 value nearest to an integer (ties to even). *)
Definition float_of_Z (z : Z) : float :=
  SF2Prim (binary_normalize prec emax z 0 false).

(** [float(n)] for a Python int: an [OverflowError] beyond the range. *)
Definition float_of_int (z : Z) : result float :=
  let f := float_of_Z z in
  if is_infinity f then Raise OverflowError else Ok f.

(** [int(f)]: truncation toward zero. *)
Definition int_of_float (f : float) : result Z :=
  match Prim2SF f with
  | S754_zero _ => Ok 0
  | S754_finite s m e => Ok (cond_Zopp s (Z.shiftl (Z.pos m) e))
  | S754_infinity _ => Raise OverflowError
  | S754_nan => Raise ValueError
  end.

(** Rounding of a binary64 value to binary32 (24 bits, ties to even), the
    element type of the tensors. *)
Definition round32 (sf : spec_float) : spec_float :=
  match sf with
  | S754_finite s m e => binary_round 24 128 s m e
  | other => other
  end.

Definition f32 (x : float) : float := SF2Prim (round32 (Prim2SF x)).

(** [lo <= f <= hi], false when [f] is not a number. *)
Definition between (lo hi f : float) : bool :=
  ((lo <=? f) && (f <=? hi))%float.

(** ** Filename decoders *)

(** [(float(int(s)) - 50.0) / 50.0] *)
Definition decode (d : Z) : result float :=
  f <- float_of_int d ;;
  Ok ((f - 50.0) / 50.0)%float.

Definition get_x (path : string) : result float :=
  d <- py_int (slice 3 6 path) ;;
  decode d.

Definition get_y (path : string) : result float :=
  d <- py_int (slice 7 10 path) ;;
  decode d.

(** ** Paths and [glob] *)

Fixpoint after_last_slash (s acc : string) : string :=
  match s with
  | EmptyString => acc
  | String c r =>
      if Ascii.eqb c "/" then after_last_slash r r else after_last_slash r acc
  end.

(** [os.path.basename(p)]: what follows the last slash. *)
Definition basename (p : string) : string := after_last_slash p p.

Fixpoint last_char (s : string) : option ascii :=
  match s with
  | EmptyString => None
  | String c EmptyString => Some c
  | String _ r => last_char r
  end.

Fixpoint rstrip_slash (s : string) : string :=
  match s with
  | String c r =>
      match rstrip_slash r with
      | EmptyString => if Ascii.eqb c "/" then EmptyString else String c EmptyString
      | r' => String c r'
      end
  | EmptyString => EmptyString
  end.

Definition starts_with (c : ascii) (s : string) : bool :=
  match s with
  | String d _ => Ascii.eqb c d
  | EmptyString => false
  end.

(** [os.path.join(a, b)] *)
Definition path_join (a b : string) : string :=
  if starts_with "/" b then b
  else
    match last_char a with
    | None => b
    | Some c => if Ascii.eqb c "/" then a ++ b else a ++ "/" ++ b
    end.

(** [os.path.dirname(p)]: the head of [os.path.split], with its trailing
    slashes removed unless it is the root. *)
Definition dirname (p : string) : string :=
  let head := substring 0 (String.length p - String.length (basename p)) p in
  match rstrip_slash head with
  | EmptyString => head
  | h => h
  end.

(** [fnmatch] for patterns made of literal characters, [*] and [?]. *)
Fixpoint fnmatch (pat name : string) : bool :=
  match pat with
  | EmptyString =>
      match name with
      | EmptyString => true
      | _ => false
      end
  | String "*" p =>
      (fix star (n : string) : bool :=
         fnmatch p n ||
         match n with
         | String _ n' => star n'
         | EmptyString => false
         end) name
  | String "?" p =>
      match name with
      | String _ n' => fnmatch p n'
      | EmptyString => false
      end
  | String c p =>
      match name with
      | String d n' => Ascii.eqb c d && fnmatch p n'
      | EmptyString => false
      end
  end.

Definition is_hidden (s : string) : bool := starts_with "." s.

(** [glob.has_magic]: one of the characters [*], [?] and the opening
    bracket occurs. *)
Fixpoint has_magic (s : string) : bool :=
  match s with
  | EmptyString => false
  | String c r =>
      Ascii.eqb c "*" || Ascii.eqb c "?" || Ascii.eqb c "[" || has_magic r
  end.

(** ** Images and tensors *)

(** A decoded picture: its number of bands (1 for a greyscale JPEG, 3 for
    RGB, 4 for CMYK) and its rows of pixels, a pixel being its band values. *)
Definition pixel : Type := list Z.

Record image : Type := mkImage {
  bands : nat;
  rows : list (list pixel) }.

(** [transforms.functional.hflip]: every row is reversed. *)
Definition hflip (img : image) : image :=
  mkImage (bands img) (map (@rev pixel) (rows img)).

(** A tensor of rank three, channels first. *)
Definition tensor : Type := list (list (list float)).

Definition has_shape (t : tensor) (c h w : nat) : bool :=
  (List.length t =? c)%nat &&
  forallb (fun plane =>
    (List.length plane =? h)%nat &&
    forallb (fun line => (List.length line =? w)%nat) plane) t.

(** [transforms.functional.to_tensor] on an 8-bit picture: channel first,
    each byte divided by 255 in float32. *)
Definition unit_of_byte (b : Z) : float := f32 (float_of_Z b / 255)%float.

Definition to_tensor (img : image) : tensor :=
  map (fun c =>
         map (fun row => map (fun px : pixel => unit_of_byte (nth c px 0)) row)
             (rows img))
      (seq 0 (bands img)).

Definition normalize_plane (m s : float) (plane : list (list float))
  : list (list float) :=
  map (map (fun v => f32 (f32 (v - f32 m) / f32 s)%float)) plane.

Fixpoint normalize_planes (t : tensor) (mean std : list float) : tensor :=
  match t, mean, std with
  | plane :: t', m :: mean', s :: std' =>
      normalize_plane m s plane :: normalize_planes t' mean' std'
  | _, _, _ => []
  end.

(** [transforms.functional.normalize]: [tensor.sub_(mean[:, None, None])
    .div_(std[:, None, None])].  The in-place broadcast needs as many
    channels as there are means, and is a [RuntimeError] otherwise. *)
Definition normalize (t : tensor) (mean std : list float) : result tensor :=
  if ((List.length t =? List.length mean) &&
      (List.length std =? List.length mean))%nat
  then Ok (normalize_planes t mean std)
  else Raise RuntimeError.

(** [transforms.ColorJitter(brightness, contrast, saturation, hue)] *)
Record ColorJitter : Type := mkColorJitter {
  brightness : float;
  contrast : float;
  saturation : float;
  hue : float }.

(** What the notebook calls but does not define.
    - [listdir d] is the listing of the directory [d], empty when it
      cannot be listed; [glob_dirs d] is what [glob] finds for a directory
      part [d] that holds wildcards.
    - [image_open] is [PIL.Image.open]: it reads the header of the file
      and returns a [picture] whose pixels are not decoded yet;
      [image_load] is the decoding, which PIL runs in the first transform
      that needs the pixels.
    - [jitter] is the call of a [ColorJitter], [jitter_draw] being what
      it draws at random; it raises on the modes its enhancements do not
      take.  [resize] is [transforms.functional.resize]. *)
Class Vision : Type := {
  picture : Type;
  jitter_draw : Type;
  listdir : string -> list string;
  glob_dirs : string -> list string;
  image_open : string -> result picture;
  image_load : picture -> result image;
  jitter : ColorJitter -> jitter_draw -> image -> result image;
  resize : image -> nat * nat -> image }.

(** [glob.glob1(dirname, pattern)]: the entries of one directory that match,
    hidden ones left out unless the pattern starts with a dot. *)
Definition glob1 `{Vision} (dir pat : string) : list string :=
  let names := listdir dir in
  let visible := if is_hidden pat then names
                 else filter (fun n => negb (is_hidden n)) names in
  filter (fnmatch pat) visible.

(** [glob.glob(pathname)] for a pathname whose last component holds a
    wildcard: the directory part is taken as it is written unless it holds
    wildcards itself, in which case it is expanded first; every match in
    every such directory is joined to its directory. *)
Definition glob `{Vision} (pathname : string) : list string :=
  let d := dirname pathname in
  let pat := basename pathname in
  let dirs := if negb (String.eqb d pathname) && has_magic d
              then glob_dirs d else [d] in
  flat_map (fun dir => map (path_join dir) (glob1 dir pat)) dirs.

(** ** The dataset class *)

Record XYDataset : Type := mkXYDataset {
  directory : string;
  random_hflips : bool;
  image_paths : list string;
  color_jitter : ColorJitter }.

(** [XYDataset.__init__(self, directory, random_hflips=False)] *)
Definition XYDataset_init `{Vision} (directory : string) (random_hflips : bool)
  : XYDataset :=
  {| directory := directory;
     random_hflips := random_hflips;
     image_paths := glob (path_join directory "*.jpg");
     color_jitter := mkColorJitter 0.3 0.3 0.3 0.3 |}.

(** A method runs on the object [self], may change its attributes, and
    returns or raises. *)
Definition method (A : Type) : Type := XYDataset -> XYDataset * result A.

Definition mret {A : Type} (a : A) : method A := fun self => (self, Ok a).

Definition mbind {A B : Type} (m : method A) (k : A -> method B) : method B :=
  fun self =>
    match m self with
    | (self', Ok a) => k a self'
    | (self', Raise e) => (self', Raise e)
    end.

(** Reading an attribute of [self]. *)
Definition attr {A : Type} (field : XYDataset -> A) : method A :=
  fun self => (self, Ok (field self)).

(** A call that does not touch [self]. *)
Definition call {A : Type} (r : result A) : method A := fun self => (self, r).

Notation "x <~ m ;; k" := (mbind m (fun x => k))
  (at level 61, m at next level, right associativity).

(** [XYDataset.__len__] *)
Definition len : method Z :=
  paths <~ attr image_paths ;;
  mret (Z.of_nat (List.length paths)).

(** The flip branch of [__getitem__]: with [draw] the value of
    [float(np.random.rand(1))]. *)
Definition flip_branch (draw : float) (image_x : image * float) : image * float :=
  let '(image, x) := image_x in
  if (0.5 <? draw)%float then (hflip image, (- x)%float) else (image, x).

(** [XYDataset.__getitem__(self, idx)], with the two random draws of one
    access given: [draw] for [np.random.rand(1)] and [jit] for the jitter.
    The pixels are decoded by [hflip] when the branch is taken and by the
    first enhancement of the jitter otherwise, in both cases after the two
    decoders have read the name: that is where [image_load] stands. *)
Definition getitem `{Vision} (idx : Z) (draw : float) (jit : jitter_draw)
  : method (tensor * list float) :=
  paths <~ attr image_paths ;;
  image_path <~ call (py_index paths idx) ;;
  file <~ call (image_open image_path) ;;
  x <~ call (get_x (basename image_path)) ;;
  y <~ call (get_y (basename image_path)) ;;
  image <~ call (image_load file) ;;
  let '(image, x) := flip_branch draw (image, x) in
  cj <~ attr color_jitter ;;
  image <~ call (jitter cj jit image) ;;
  let image := resize image (224%nat, 224%nat) in
  let image := to_tensor image in
  let image := rev image in
  image <~ call (normalize image [0.485%float; 0.456%float; 0.406%float]
                                 [0.229%float; 0.224%float; 0.225%float]) ;;
  mret (image, [f32 x; f32 y]).

(** ** The train/test split *)

Definition test_percent : float := 0.1.

(** [num_test = int(test_percent * len(dataset))] *)
Definition num_test (n : Z) : result Z :=
  f <- float_of_int n ;;
  int_of_float (test_percent * f)%float.

Fixpoint sum_lengths (lengths : list Z) : Z :=
  match lengths with
  | [] => 0
  | l :: rest => l + sum_lengths rest
  end.

(** The list comprehension of [random_split]: one slice
    [indices[offset - length : offset]] per length, [offset] being the
    running sum of the lengths. *)
Fixpoint subsets (indices : list Z) (offset : Z) (lengths : list Z)
  : list (list Z) :=
  match lengths with
  | [] => []
  | length :: rest =>
      py_slice indices offset (offset + length)
        :: subsets indices (offset + length) rest
  end.

(** [torch.utils.data.random_split(dataset, lengths)], with [indices] the
    value of [randperm(sum(lengths))]; a subset is the list of the indices
    it keeps. *)
Definition random_split (dataset_len : Z) (lengths indices : list Z)
  : result (list (list Z)) :=
  if sum_lengths lengths =? dataset_len
  then Ok (subsets indices 0 lengths)
  else Raise ValueError.

(** The cell that splits the dataset: [(train_dataset, test_dataset)]. *)
Definition split (dataset_len : Z) (indices : list Z)
  : result (list Z * list Z) :=
  num_test <- num_test dataset_len ;;
  parts <- random_split dataset_len
             [dataset_len - num_test; num_test] indices ;;
  match parts with
  | [train_dataset; test_dataset] => Ok (train_dataset, test_dataset)
  | _ => Raise ValueError
  end.

(** [range(n)] *)
Definition range (n : Z) : list Z := map Z.of_nat (seq 0 (Z.to_nat n)).

(** ** The training loop *)

Definition NUM_EPOCHS : nat := 50.

Definition initial_best_loss : float := 1e9.

(** The two inner loops of an epoch, and [model.state_dict()].  [world] is
    everything they read and change: the weights, the optimiser, the
    generators behind the loaders.  A pass leaves a new world behind,
    whether it returns its average loss or raises: the optimiser steps
    taken before an exception stay taken. *)
Class Trainer : Type := {
  world : Type;
  params : Type;
  train_pass : world -> world * result float;
  test_pass : world -> world * result float;
  state_dict : world -> params }.

(** What one epoch shows: the line it prints, whether it called
    [torch.save], and the parameters the model had when it ended. *)
Record epoch_report `{Trainer} : Type := mkReport {
  ep_epoch : nat;
  ep_train_loss : float;
  ep_test_loss : float;
  ep_saved : bool;
  ep_params : params }.
Arguments mkReport {_} _ _ _ _ _.

(** The variables of the loop; [checkpoint] is the content of the file at
    [BEST_MODEL_PATH], [None] while it does not exist. *)
Record loop_state `{Trainer} : Type := mkLoop {
  model : world;
  best_loss : float;
  checkpoint : option params;
  history : list epoch_report }.
Arguments mkLoop {_} _ _ _ _.

(** The state a pass that raised leaves: the loop variables as they were,
    the model as the pass left it. *)
Definition stopped `{Trainer} (s : loop_state) (w : world) : loop_state :=
  {| model := w;
     best_loss := best_loss s;
     checkpoint := checkpoint s;
     history := history s |}.

(** The body of [for epoch in range(NUM_EPOCHS)]: the state it leaves and
    the exception it raised, if one of the two passes did.  The line is
    printed and the file written only after both passes returned;
    [torch.save] is taken to write the file. *)
Definition epoch_body `{Trainer} (epoch : nat) (s : loop_state)
  : loop_state * option exn :=
  let '(w1, trained) := train_pass (model s) in
  match trained with
  | Raise e => (stopped s w1, Some e)
  | Ok train_loss =>
      let '(w2, tested) := test_pass w1 in
      match tested with
      | Raise e => (stopped s w2, Some e)
      | Ok test_loss =>
          if (test_loss <? best_loss s)%float then
            ({| model := w2;
                best_loss := test_loss;
                checkpoint := Some (state_dict w2);
                history := history s ++
                  [mkReport epoch train_loss test_loss true (state_dict w2)] |},
             None)
          else
            ({| model := w2;
                best_loss := best_loss s;
                checkpoint := checkpoint s;
                history := history s ++
                  [mkReport epoch train_loss test_loss false (state_dict w2)] |},
             None)
      end
  end.

(** The loop over a list of epochs: it ends with the state reached and the
    exception that stopped it, if one did. *)
Fixpoint run_epochs `{Trainer} (epochs : list nat) (s : loop_state)
  : loop_state * option exn :=
  match epochs with
  | [] => (s, None)
  | epoch :: rest =>
      match epoch_body epoch s with
      | (s', None) => run_epochs rest s'
      | (s', Some e) => (s', Some e)
      end
  end.

Definition initial_state `{Trainer} (w0 : world) (file0 : option params)
  : loop_state :=
  {| model := w0;
     best_loss := initial_best_loss;
     checkpoint := file0;
     history := [] |}.

(** The first [n] epochs of the loop, from the weights [w0] and the file
    content [file0]; the notebook runs [train NUM_EPOCHS]. *)
Definition train `{Trainer} (n : nat) (w0 : world) (file0 : option params)
  : loop_state * option exn :=
  run_epochs (seq 0 n) (initial_state w0 file0).

(** ** Predicates of the statements *)

(** [cmp x y] is the comparison of two floats, [None] when one of them is
    not a number. *)
Definition cmp (x y : float) : option comparison :=
  SFcompare (Prim2SF x) (Prim2SF y).

Definition join_cmp (c1 c2 : comparison) : comparison :=
  match c1 with
  | Eq => c2
  | _ => c1
  end.

(** The mantissa of the binary64 value of [0.1]. *)
Definition tenth_mantissa : positive := 7205759403792794.

Definition decode_in_unit (d : Z) : bool :=
  match decode d with
  | Ok f => between (-1) 1 f
  | Raise _ => false
  end.

(** [l] is below the test loss of every epoch before the [k]-th whose loss
    is a number. *)
Definition below_earlier `{Trainer} (hist : list epoch_report) (k : nat)
  (l : float) : Prop :=
  forall j rj, (j < k)%nat -> nth_error hist j = Some rj ->
    is_nan (ep_test_loss rj) = false ->
    (l <? ep_test_loss rj)%float = true.

(** What the loop keeps true from one epoch to the next. *)
Record loop_inv `{Trainer} (file0 : option params) (s : loop_state) : Prop := {
  inv_bound : (best_loss s <=? initial_best_loss)%float = true;
  inv_min : forall r, In r (history s) ->
    (ep_test_loss r <? best_loss s)%float = false;
  inv_file :
    (best_loss s = initial_best_loss /\ checkpoint s = file0 /\
     forall r, In r (history s) -> ep_saved r = false) \/
    (exists k rk, nth_error (history s) k = Some rk /\
       ep_saved rk = true /\ ep_test_loss rk = best_loss s /\
       checkpoint s = Some (ep_params rk));
  inv_saved : forall k r, nth_error (history s) k = Some r ->
    (ep_saved r = true <->
     (ep_test_loss r <? initial_best_loss)%float = true /\
     below_earlier (history s) k (ep_test_loss r));
  inv_epoch : forall k r, nth_error (history s) k = Some r -> ep_epoch r = k }.

(** ** Concrete libraries, for the examples *)

(** A resize that picks the nearest source pixel. *)
Definition resize_nearest (img : image) (size : nat * nat) : image :=
  let '(h, w) := size in
  let src_h := List.length (rows img) in
  mkImage (bands img)
    (map (fun i =>
            let row := nth (i * src_h / h) (rows img) [] in
            let src_w := List.length row in
            map (fun j => nth (j * src_w / w) row []) (seq 0 w))
         (seq 0 h))%nat.

Definition red_blue : image :=
  mkImage 3 [[[255; 0; 0]; [0; 0; 255]]].

Definition grey_ramp : image :=
  mkImage 1 [[[10]; [200]]].

(** A directory with two RGB pictures, a greyscale picture, a hidden file
    and a text file, and no directory a wildcard would find; a picture is
    decoded as soon as it is opened, and the jitter draws nothing and
    changes nothing. *)
Definition demo_vision : Vision :=
  {| picture := image;
     jitter_draw := unit;
     listdir := fun d =>
       if String.eqb d "dataset"
       then ["xy_100_050_a.jpg"; "xy_050_001_grey.jpg";
             ".xy_000_000_hidden.jpg"; "notes.txt"; "xy_030_001_b.jpg"]
       else [];
     glob_dirs := fun _ => [];
     image_open := fun p =>
       if String.eqb p "dataset/xy_100_050_a.jpg" then Ok red_blue
       else if String.eqb p "dataset/xy_050_001_grey.jpg" then Ok grey_ramp
       else if String.eqb p "dataset/xy_030_001_b.jpg" then Ok red_blue
       else Raise OSError;
     image_load := fun img => Ok img;
     jitter := fun _ _ img => Ok img;
     resize := resize_nearest |}.

(** The notebook's dataset, over that directory. *)
Definition demo_dataset : XYDataset :=
  @XYDataset_init demo_vision "dataset" false.

(** A trainer that replays a list of test losses; its parameters are the
    number of training passes done. *)
Definition scripted : Trainer :=
  {| world := nat * list float;
     params := nat;
     train_pass := fun w => ((S (fst w), snd w), Ok 0%float);
     test_pass := fun w =>
       match snd w with
       | l :: rest => ((fst w, rest), Ok l)
       | [] => (w, Raise ZeroDivisionError)
       end;
     state_dict := fst |}.

(** The steps of [__getitem__] that follow the flip branch. *)
Definition pipeline `{Vision} (cj : ColorJitter) (jit : jitter_draw)
  (image : image) : result tensor :=
  image <- jitter cj jit image ;;
  let image := resize image (224%nat, 224%nat) in
  let image := to_tensor image in
  let image := rev image in
  normalize image [0.485%float; 0.456%float; 0.406%float]
                  [0.229%float; 0.224%float; 0.225%float].

(** What torchvision documents of the two transforms: both keep the mode of
    the picture, the jitter when it takes the picture at all, and [resize]
    returns the size it is asked for. *)
Record vision_laws `{Vision} : Prop := {
  jitter_bands : forall cj j img out,
    jitter cj j img = Ok out -> bands out = bands img;
  resize_bands : forall img size, bands (resize img size) = bands img;
  resize_height : forall img h w,
    List.length (rows (resize img (h, w))) = h;
  resize_width : forall img h w row,
    In row (rows (resize img (h, w))) -> List.length row = w }.

(** A pattern without wildcards. *)
Fixpoint is_literal (pat : string) : bool :=
  match pat with
  | EmptyString => true
  | String c p =>
      negb (Ascii.eqb c "*") && negb (Ascii.eqb c "?") && is_literal p
  end.

Fixpoint has_slash (s : string) : bool :=
  match s with
  | EmptyString => false
  | String c r => Ascii.eqb c "/" || has_slash r
  end.

(** The mirror image of a tensor: every line reversed. *)
Definition mirror (t : tensor) : tensor := map (map (@rev float)) t.

(** ** Further predicates and the inner loops *)

(** The table behind the bounds of a three-character field: whatever
    integer the field writes, between -99 and 999, its target is a number
    between -2.98 and 18.98. *)
Definition decode_in_reach (d : Z) : bool :=
  match decode d with
  | Ok f => between (-2.98) 18.98 f
  | Raise _ => false
  end.

Definition decode_steps_up (d : Z) : bool :=
  match decode d, decode (d + 1) with
  | Ok a, Ok b => (a <? b)%float
  | _, _ => false
  end.

(** One band of a picture as a plane of float32 values in [0, 1]. *)
Definition band_plane (c : nat) (img : image) : list (list float) :=
  map (fun row => map (fun px : pixel => unit_of_byte (nth c px 0)) row)
      (rows img).

(** A directory name that is not empty and does not end with a slash. *)
Definition plain_dir (dir : string) : bool :=
  match last_char dir with
  | Some c => negb (Ascii.eqb c "/")
  | None => false
  end.

(** The entries [glob] keeps for [*.jpg]. *)
Definition is_visible_jpg (name : string) : bool :=
  negb (is_hidden name) && fnmatch "*.jpg" name.

(** [s.endswith(suffix)] *)
Fixpoint ends_with (suffix s : string) : bool :=
  String.eqb s suffix ||
  match s with
  | String _ r => ends_with suffix r
  | EmptyString => false
  end.

(** A visible jpg file, said without a pattern: the name does not start
    with a dot and ends with [.jpg]. *)
Definition jpg_entry (name : string) : bool :=
  negb (starts_with "." name) && ends_with ".jpg" name.

(** ** The loaders and the two inner loops *)

Definition batch_size : nat := 16.

(** [len(loader)] over a subset of [n] samples, the last batch being
    allowed to be short: [(n + batch_size - 1) // batch_size]. *)
Definition loader_len (n : nat) : nat :=
  ((n + batch_size - 1) / batch_size)%nat.

(** The batches of one pass over the samples in the order [order]. *)
Fixpoint chunks (fuel : nat) (order : list Z) : list (list Z) :=
  match fuel with
  | O => []
  | S fuel' =>
      match order with
      | [] => []
      | _ => firstn batch_size order :: chunks fuel' (skipn batch_size order)
      end
  end.

Definition batches (order : list Z) : list (list Z) :=
  chunks (List.length order) order.

(** What the loops call on a batch of sample indices.  [net_world] holds
    the weights, the optimiser and the generators; [reshuffle] is the
    random order a loader draws for one pass; [train_batch] reads the
    samples, runs the model forward, takes the mean squared error, runs
    it backward and steps the optimiser; [eval_batch] reads, runs
    forward and takes the loss.  Either leaves a world behind when it
    raises too. *)
Class Net : Type := {
  net_world : Type;
  net_params : Type;
  reshuffle : net_world -> list Z -> net_world * list Z;
  train_batch : net_world -> list Z -> net_world * result float;
  eval_batch : net_world -> list Z -> net_world * result float;
  net_state_dict : net_world -> net_params }.

(** [torch.utils.data.DataLoader(subset, batch_size=16, shuffle=True,
    num_workers=4)]: the random sampler it builds refuses a subset with no
    sample. *)
Definition DataLoader (subset : list Z) : result (list Z) :=
  match subset with
  | [] => Raise ValueError
  | _ => Ok subset
  end.

(** The cell that builds [train_loader], then [test_loader]. *)
Definition make_loaders (train_dataset test_dataset : list Z)
  : result (list Z * list Z) :=
  train_loader <- DataLoader train_dataset ;;
  test_loader <- DataLoader test_dataset ;;
  Ok (train_loader, test_loader).

(** [for images, labels in iter(loader): ...; total += loss], the sum being
    a float32 tensor; a batch that raises ends the loop. *)
Fixpoint run_batches `{Net}
  (step : net_world -> list Z -> net_world * result float)
  (w : net_world) (total : float) (loader : list (list Z))
  : net_world * result float :=
  match loader with
  | [] => (w, Ok total)
  | b :: rest =>
      let '(w', stepped) := step w b in
      match stepped with
      | Ok loss => run_batches step w' (f32 (total + loss)) rest
      | Raise e => (w', Raise e)
      end
  end.

(** [total /= len(loader)]: with no batch [total] is still the Python float
    [0.0], and dividing it by the integer zero raises; a loader that
    [DataLoader] returned has a batch. *)
Definition mean_loss (total : float) (count : nat) : result float :=
  match count with
  | O => Raise ZeroDivisionError
  | _ => Ok (f32 (total / f32 (float_of_Z (Z.of_nat count))))
  end.

(** One inner loop over the subset of a loader. *)
Definition pass `{Net}
  (step : net_world -> list Z -> net_world * result float)
  (loader : list Z) (w : net_world) : net_world * result float :=
  let '(w1, order) := reshuffle w loader in
  let '(w2, summed) := run_batches step w1 0 (batches order) in
  (w2, total <- summed ;; mean_loss total (loader_len (List.length loader))).

(** The trainer of the notebook over its two loaders. *)
Definition notebook_trainer `{Net} (train_loader test_loader : list Z)
  : Trainer :=
  {| world := net_world;
     params := net_params;
     train_pass := pass train_batch train_loader;
     test_pass := pass eval_batch test_loader;
     state_dict := net_state_dict |}.

(** A loader yields each sample of its subset once. *)
Definition reshuffle_permutes `{Net} : Prop :=
  forall w subset, Permutation (snd (reshuffle w subset)) subset.

(** A net whose every batch has loss one and whose loaders keep the order
    of the subset; its parameters count the training steps. *)
Definition counting_net : Net :=
  {| net_world := nat;
     net_params := nat;
     reshuffle := fun w subset => (w, subset);
     train_batch := fun w _ => (S w, Ok 1%float);
     eval_batch := fun w _ => (w, Ok 1%float);
     net_state_dict := fun w => w |}.

(** A picture whose band values are bytes. *)
Definition bytes_image (img : image) : bool :=
  forallb (forallb (forallb (fun v => (0 <=? v) && (v <=? 255)))) (rows img).

(** The least and the greatest element a normalised byte can give: a zero
    byte under the first mean, a full byte under the last. *)
Definition tensor_floor : float := (-2.1179039478302002)%float.
Definition tensor_ceiling : float := 2.6400001049041748%float.

Definition normalized_byte (m s : float) (b : Z) : float :=
  f32 (f32 (unit_of_byte b - f32 m) / f32 s)%float.

Definition byte_in_reach (b : Z) : bool :=
  between tensor_floor tensor_ceiling (normalized_byte 0.485 0.229 b) &&
  between tensor_floor tensor_ceiling (normalized_byte 0.456 0.224 b) &&
  between tensor_floor tensor_ceiling (normalized_byte 0.406 0.225 b).

Definition values_between (lo hi : float) (t : tensor) : bool :=
  forallb (forallb (forallb (between lo hi))) t.

(** * Proofs *)

(** * Strings and the filename decoders *)

Lemma digit_not_space (c : ascii) : is_digit c = true -> is_space c = false.
Proof.
  unfold is_digit, is_space. intros Hc.
  apply andb_prop in Hc as [H1 H2].
  apply Nat.leb_le in H1, H2.
  cbv zeta.
  destruct (Nat.leb_spec 9 (nat_of_ascii c)),
    (Nat.leb_spec (nat_of_ascii c) 13),
    (Nat.eqb_spec (nat_of_ascii c) 32), (Nat.eqb_spec (nat_of_ascii c) 133),
    (Nat.eqb_spec (nat_of_ascii c) 160);
    cbn; try reflexivity; lia.
Qed.

Lemma lstrip_digits (s : string) : all_digits s = true -> lstrip s = s.
Proof.
  destruct s as [|c r]; cbn; [reflexivity|].
  intros H. apply andb_prop in H as [Hc _].
  now rewrite (digit_not_space c Hc).
Qed.

Lemma rstrip_digits (s : string) : all_digits s = true -> rstrip s = s.
Proof.
  induction s as [|c r IH]; cbn; [reflexivity|].
  intros H. apply andb_prop in H as [Hc Hr].
  rewrite (IH Hr), (digit_not_space c Hc).
  destruct r; reflexivity.
Qed.

Lemma strip_digits (s : string) : all_digits s = true -> strip s = s.
Proof.
  intros H. unfold strip. rewrite (lstrip_digits s H). now apply rstrip_digits.
Qed.

Lemma parse_digits_all (s : string) :
  all_digits s = true ->
  forall acc, parse_digits s acc true = Some (decimal_from acc s).
Proof.
  induction s as [|c r IH]; cbn; intros H acc; [reflexivity|].
  apply andb_prop in H as [Hc Hr].
  rewrite Hc. now apply IH.
Qed.

Lemma digit_not_sign (c : ascii) :
  is_digit c = true -> c <> "+"%char /\ c <> "-"%char.
Proof.
  intros H. split; intros ->; discriminate H.
Qed.

Lemma py_int_digits (s : string) :
  is_digits s = true -> py_int s = Ok (decimal s).
Proof.
  destruct s as [|c r]; [discriminate|].
  unfold is_digits. intros H.
  unfold py_int. rewrite (strip_digits _ H).
  cbn in H. apply andb_prop in H as [Hc Hr].
  assert (parse_digits (String c r) 0 false = Some (decimal (String c r))) as E.
  { cbn. rewrite Hc. now apply parse_digits_all. }
  destruct (digit_not_sign c Hc) as [Hp Hm].
  destruct c as [[] [] [] [] [] [] [] []]; try (rewrite E; reflexivity);
    congruence.
Qed.

Lemma in_range (n z : Z) : In z (range n) <-> 0 <= z < n.
Proof.
  unfold range. rewrite in_map_iff. split.
  - intros [k [<- Hk]]. apply in_seq in Hk. lia.
  - intros Hz. exists (Z.to_nat z). split; [lia|]. apply in_seq. lia.
Qed.

Lemma decode_unit_table : forallb decode_in_unit (range 101) = true.
Proof. vm_compute. reflexivity. Qed.

Lemma decode_unit (d : Z) :
  0 <= d <= 100 -> exists f, decode d = Ok f /\ between (-1) 1 f = true.
Proof.
  intros Hd.
  pose proof decode_unit_table as T.
  rewrite forallb_forall in T.
  specialize (T d). unfold decode_in_unit in T.
  destruct (decode d) as [f|e].
  - exists f. split; [reflexivity|]. apply T. apply in_range. lia.
  - discriminate T. apply in_range. lia.
Qed.

(** Claim C4.  When the characters at offsets 3 to 5 and 7 to 9 of a
    filename are digits and each field writes a number between 0 and 100,
    [get_x] and [get_y] both return, and both values lie in [-1, 1]. *)
Theorem get_xy_in_unit_interval (path : string) :
  is_digits (slice 3 6 path) = true ->
  is_digits (slice 7 10 path) = true ->
  0 <= decimal (slice 3 6 path) <= 100 ->
  0 <= decimal (slice 7 10 path) <= 100 ->
  exists x y : float,
    get_x path = Ok x /\ get_y path = Ok y /\
    between (-1) 1 x = true /\ between (-1) 1 y = true.
Proof.
  intros Dx Dy Rx Ry.
  destruct (decode_unit _ Rx) as [x [Ex Bx]].
  destruct (decode_unit _ Ry) as [y [Ey By]].
  exists x, y. unfold get_x, get_y.
  rewrite (py_int_digits _ Dx), (py_int_digits _ Dy). cbn [bind].
  auto.
Qed.

Lemma get_xy_in_unit_interval_witness :
  exists x y : float,
    get_x "xy_100_000_a.jpg" = Ok x /\ get_y "xy_100_000_a.jpg" = Ok y /\
    between (-1) 1 x = true /\ between (-1) 1 y = true.
Proof.
  apply (get_xy_in_unit_interval "xy_100_000_a.jpg");
    [reflexivity | reflexivity | vm_compute; split; discriminate
    | vm_compute; split; discriminate].
Defined.

(** * Order of the floats *)

Ltac cmp_cases :=
  repeat match goal with
  | |- context [Z.compare ?a ?b] => destruct (Z.compare_spec a b)
  | H : context [Z.compare ?a ?b] |- _ => destruct (Z.compare_spec a b)
  | |- context [Pos.compare_cont Eq ?a ?b] =>
      change (Pos.compare_cont Eq a b) with (Pos.compare a b);
      destruct (Pos.compare_spec a b)
  | H : context [Pos.compare_cont Eq ?a ?b] |- _ =>
      change (Pos.compare_cont Eq a b) with (Pos.compare a b) in H;
      destruct (Pos.compare_spec a b)
  end.

Ltac split_signs :=
  repeat match goal with s : bool |- _ => destruct s end.

Lemma SFcompare_trans (x y z : spec_float) (c1 c2 : comparison) :
  SFcompare x y = Some c1 -> SFcompare y z = Some c2 ->
  c1 <> Gt -> c2 <> Gt ->
  SFcompare x z = Some (join_cmp c1 c2).
Proof.
  intros H1 H2 N1 N2.
  destruct x as [sx|sx| |sx mx ex], y as [sy|sy| |sy my ey],
           z as [sz|sz| |sz mz ez];
    try discriminate; split_signs; cbn in *;
    try (injection H1 as <-); try (injection H2 as <-);
    try congruence; try reflexivity;
    cmp_cases; subst; cbn in *; try congruence; try lia; try reflexivity.
Qed.

Lemma SFcompare_swap (x y : spec_float) :
  SFcompare y x = option_map CompOpp (SFcompare x y).
Proof.
  destruct x as [sx|sx| |sx mx ex], y as [sy|sy| |sy my ey];
    split_signs; cbn; try reflexivity;
    cmp_cases; subst; cbn; try reflexivity; try lia.
Qed.

Lemma SFcompare_refl (x : spec_float) :
  x <> S754_nan -> SFcompare x x = Some Eq.
Proof.
  destruct x as [sx|sx| |sx mx ex]; try congruence; intros _;
    split_signs; cbn; try reflexivity;
    rewrite Z.compare_refl;
    change (Pos.compare_cont Eq mx mx) with (Pos.compare mx mx);
    rewrite Pos.compare_refl; reflexivity.
Qed.

Lemma SFcompare_some (x y : spec_float) :
  x <> S754_nan -> y <> S754_nan -> exists c, SFcompare x y = Some c.
Proof.
  destruct x, y; try congruence; intros _ _; cbn; eauto.
Qed.

Lemma SFcompare_not_nan (x y : spec_float) (c : comparison) :
  SFcompare x y = Some c -> x <> S754_nan /\ y <> S754_nan.
Proof.
  destruct x, y; cbn; try discriminate; intros _; split; discriminate.
Qed.

Lemma ltb_cmp (x y : float) : (x <? y)%float = true <-> cmp x y = Some Lt.
Proof.
  rewrite ltb_spec. unfold SFltb, cmp.
  destruct (SFcompare (Prim2SF x) (Prim2SF y)) as [[]|]; split;
    congruence.
Qed.

Lemma leb_cmp (x y : float) :
  (x <=? y)%float = true <-> cmp x y = Some Lt \/ cmp x y = Some Eq.
Proof.
  rewrite leb_spec. unfold SFleb, cmp.
  destruct (SFcompare (Prim2SF x) (Prim2SF y)) as [[]|]; split;
    intuition congruence.
Qed.

Lemma is_nan_cmp (x : float) : is_nan x = false <-> Prim2SF x <> S754_nan.
Proof.
  unfold is_nan. rewrite negb_false_iff, FloatAxioms.eqb_spec. unfold SFeqb.
  split.
  - intros H E. rewrite E in H. discriminate H.
  - intros H. now rewrite (SFcompare_refl _ H).
Qed.

Lemma ltb_trans (x y z : float) :
  (x <? y)%float = true -> (y <? z)%float = true -> (x <? z)%float = true.
Proof.
  rewrite !ltb_cmp. intros H1 H2.
  apply (SFcompare_trans _ _ _ _ _ H1 H2); discriminate.
Qed.

Lemma ltb_leb_trans (x y z : float) :
  (x <? y)%float = true -> (y <=? z)%float = true -> (x <? z)%float = true.
Proof.
  rewrite !ltb_cmp, leb_cmp. intros H1 [H2|H2];
    apply (SFcompare_trans _ _ _ _ _ H1 H2); discriminate.
Qed.

Lemma ltb_leb (x y : float) :
  (x <? y)%float = true -> (x <=? y)%float = true.
Proof.
  rewrite ltb_cmp, leb_cmp. auto.
Qed.

Lemma ltb_irrefl (x : float) : (x <? x)%float = false.
Proof.
  apply not_true_is_false. rewrite ltb_cmp. unfold cmp. intros H.
  destruct (SFcompare_not_nan _ _ _ H) as [N _].
  rewrite (SFcompare_refl _ N) in H. discriminate H.
Qed.

Lemma leb_not_ltb (x y : float) :
  (x <=? y)%float = true -> (y <? x)%float = false.
Proof.
  intros H. apply not_true_is_false. rewrite ltb_cmp. rewrite leb_cmp in H.
  unfold cmp in *. rewrite SFcompare_swap.
  destruct H as [-> | ->]; discriminate.
Qed.

Lemma leb_not_nan (x y : float) :
  (x <=? y)%float = true -> is_nan x = false /\ is_nan y = false.
Proof.
  rewrite leb_cmp, !is_nan_cmp. unfold cmp.
  intros [H|H]; exact (SFcompare_not_nan _ _ _ H).
Qed.

Lemma not_ltb_leb (x y : float) :
  is_nan x = false -> is_nan y = false ->
  (x <? y)%float = false -> (y <=? x)%float = true.
Proof.
  rewrite !is_nan_cmp. intros Nx Ny H.
  apply leb_cmp. unfold cmp.
  apply not_true_iff_false in H. rewrite ltb_cmp in H. unfold cmp in H.
  rewrite SFcompare_swap.
  destruct (SFcompare_some _ _ Nx Ny) as [[] E]; rewrite E in *; cbn;
    auto; congruence.
Qed.

Lemma SFopp_involutive (x : spec_float) : SFopp (SFopp x) = x.
Proof. destruct x; cbn; now rewrite ?negb_involutive. Qed.

Lemma opp_involutive (x : float) : (- - x)%float = x.
Proof.
  apply Prim2SF_inj. now rewrite !opp_spec, SFopp_involutive.
Qed.

Lemma hflip_involutive (img : image) : hflip (hflip img) = img.
Proof.
  destruct img as [b rs]. unfold hflip. cbn. f_equal.
  rewrite map_map. rewrite <- (map_id rs) at 2.
  apply map_ext. intros row. apply rev_involutive.
Qed.

(** Claim C5.  When the draw exceeds 0.5 the flip branch mirrors the
    picture and negates x, and applying it a second time gives back the
    picture and the x it started from. *)
Theorem flip_twice_restores (draw : float) (img : image) (x : float) :
  (0.5 <? draw)%float = true ->
  flip_branch draw (img, x) = (hflip img, (- x)%float) /\
  flip_branch draw (flip_branch draw (img, x)) = (img, x).
Proof.
  intros H.
  assert (forall i v, flip_branch draw (i, v) = (hflip i, (- v)%float)) as E.
  { intros i v. unfold flip_branch. now rewrite H. }
  now rewrite !E, hflip_involutive, opp_involutive.
Qed.

Lemma flip_twice_restores_witness :
  flip_branch 0.75 (red_blue, 1%float) = (hflip red_blue, (- 1)%float) /\
  flip_branch 0.75 (flip_branch 0.75 (red_blue, 1%float)) = (red_blue, 1%float).
Proof.
  apply (flip_twice_restores 0.75 red_blue 1). reflexivity.
Defined.

Section Loop.
Context `{T : Trainer}.
Variable file0 : option params.

Lemma initial_inv (w0 : world) : loop_inv file0 (initial_state w0 file0).
Proof.
  split; cbn.
  - reflexivity.
  - intros r [].
  - left. repeat split. intros r [].
  - intros [|k] r; discriminate.
  - intros [|k] r; discriminate.
Qed.

Lemma nth_error_snoc {A : Type} (l : list A) (a : A) (k : nat) (b : A) :
  nth_error (l ++ [a]) k = Some b ->
  (k < List.length l)%nat /\ nth_error l k = Some b \/
  k = List.length l /\ b = a.
Proof.
  intros H. destruct (Nat.lt_ge_cases k (List.length l)) as [L|G].
  - left. split; [exact L|]. now rewrite nth_error_app1 in H.
  - right. rewrite nth_error_app2 in H by exact G.
    destruct (k - List.length l)%nat as [|m] eqn:E.
    + cbn in H. injection H as <-. split; [lia|reflexivity].
    + destruct m; discriminate H.
Qed.

Lemma below_earlier_snoc (hist : list epoch_report) (a : epoch_report)
  (k : nat) (l : float) :
  (k <= List.length hist)%nat ->
  below_earlier (hist ++ [a]) k l <-> below_earlier hist k l.
Proof.
  intros Hk. unfold below_earlier. split; intros B j rj Hj E N.
  - apply (B j rj Hj); [|exact N]. rewrite nth_error_app1 by lia. exact E.
  - apply (B j rj Hj); [|exact N]. rewrite nth_error_app1 in E by lia. exact E.
Qed.

Lemma best_is_number (s : loop_state) :
  loop_inv file0 s -> is_nan (best_loss s) = false.
Proof.
  intros I. exact (proj1 (leb_not_nan _ _ (inv_bound _ _ I))).
Qed.

(** The new record is saved exactly when its loss is below the sentinel and
    below every earlier loss that is a number. *)
Lemma saved_iff_new (s : loop_state) (l : float) :
  loop_inv file0 s ->
  (l <? best_loss s)%float = true <->
  (l <? initial_best_loss)%float = true /\
  below_earlier (history s) (List.length (history s)) l.
Proof.
  intros I. split.
  - intros L. split.
    + exact (ltb_leb_trans _ _ _ L (inv_bound _ _ I)).
    + intros j rj _ E N.
      apply (ltb_leb_trans _ _ _ L).
      apply not_ltb_leb; [exact N | exact (best_is_number s I) |].
      apply (inv_min _ _ I). eapply nth_error_In. exact E.
  - intros [L B].
    destruct (inv_file _ _ I) as [[E _] | [k [rk [Ek [_ [El _]]]]]].
    + now rewrite E.
    + rewrite <- El. apply (B k rk).
      * apply nth_error_Some. congruence.
      * exact Ek.
      * rewrite El. exact (best_is_number s I).
Qed.

(** An epoch that raises leaves the loop variables as they were. *)
Lemma epoch_body_stops (epoch : nat) (s s' : loop_state) (e : exn) :
  epoch_body epoch s = (s', Some e) -> exists w, s' = stopped s w.
Proof.
  unfold epoch_body. intros H.
  destruct (train_pass (model s)) as [w1 [train_loss|e1]].
  - destruct (test_pass w1) as [w2 [l|e2]].
    + destruct (l <? best_loss s)%float; discriminate H.
    + injection H as <- _. now exists w2.
  - injection H as <- _. now exists w1.
Qed.

Lemma stopped_inv (s : loop_state) (w : world) :
  loop_inv file0 s -> loop_inv file0 (stopped s w).
Proof.
  intros [B M F S E]. split; cbn; assumption.
Qed.

Lemma epoch_body_inv (epoch : nat) (s s' : loop_state) :
  epoch = List.length (history s) ->
  epoch_body epoch s = (s', None) -> loop_inv file0 s -> loop_inv file0 s'.
Proof.
  intros Hep H I. unfold epoch_body in H.
  destruct (train_pass (model s)) as [w1 [train_loss|e]]; [|discriminate H].
  destruct (test_pass w1) as [w2 [l|e]]; [|discriminate H].
  pose proof (saved_iff_new s l I) as S.
  destruct (l <? best_loss s)%float eqn:L; injection H as <-.
  - (* a new best loss: the file is written *)
    split; cbn.
    + apply ltb_leb. exact (proj1 (proj1 S eq_refl)).
    + intros r Hr. apply in_app_or in Hr as [Hr | [<- | []]].
      * destruct (ep_test_loss r <? l)%float eqn:C; [|reflexivity].
        rewrite <- (inv_min _ _ I r Hr). symmetry.
        exact (ltb_trans _ _ _ C L).
      * cbn. apply ltb_irrefl.
    + right. exists (List.length (history s)). eexists. split.
      * rewrite nth_error_app2 by lia. rewrite Nat.sub_diag. reflexivity.
      * cbn. auto.
    + intros k r E. apply nth_error_snoc in E as [[Hk E] | [-> ->]].
      * rewrite below_earlier_snoc by lia. exact (inv_saved _ _ I k r E).
      * cbn. rewrite below_earlier_snoc by lia. split; [intros _|reflexivity].
        apply S. reflexivity.
    + intros k r E. apply nth_error_snoc in E as [[Hk E] | [-> ->]].
      * exact (inv_epoch _ _ I k r E).
      * cbn. exact Hep.
  - (* no improvement: nothing is written *)
    split; cbn.
    + exact (inv_bound _ _ I).
    + intros r Hr. apply in_app_or in Hr as [Hr | [<- | []]].
      * exact (inv_min _ _ I r Hr).
      * exact L.
    + destruct (inv_file _ _ I) as [[E [F N]] | [k [rk [Ek R]]]].
      * left. repeat split; try assumption.
        intros r Hr. apply in_app_or in Hr as [Hr | [<- | []]]; auto.
      * right. exists k, rk. split; [|exact R].
        rewrite nth_error_app1; [exact Ek|]. apply nth_error_Some. congruence.
    + intros k r E. apply nth_error_snoc in E as [[Hk E] | [-> ->]].
      * rewrite below_earlier_snoc by lia. exact (inv_saved _ _ I k r E).
      * cbn. rewrite below_earlier_snoc by lia. split; [discriminate|].
        intros B. apply S in B. discriminate B.
    + intros k r E. apply nth_error_snoc in E as [[Hk E] | [-> ->]].
      * exact (inv_epoch _ _ I k r E).
      * cbn. exact Hep.
Qed.

Lemma epoch_body_length (epoch : nat) (s s' : loop_state) :
  epoch_body epoch s = (s', None) ->
  List.length (history s') = S (List.length (history s)).
Proof.
  unfold epoch_body. intros H.
  destruct (train_pass (model s)) as [w1 [train_loss|e]]; [|discriminate H].
  destruct (test_pass w1) as [w2 [l|e]]; [|discriminate H].
  destruct (l <? best_loss s)%float; injection H as <-; cbn;
    rewrite length_app; cbn; lia.
Qed.

Lemma run_epochs_inv (n : nat) :
  forall (a : nat) (s : loop_state),
    a = List.length (history s) ->
    loop_inv file0 s -> loop_inv file0 (fst (run_epochs (seq a n) s)).
Proof.
  induction n as [|n IH]; intros a s Ha I; cbn; [exact I|].
  destruct (epoch_body a s) as [s' [e|]] eqn:E.
  - destruct (epoch_body_stops _ _ _ _ E) as [w ->]. cbn [fst].
    exact (stopped_inv s w I).
  - apply IH.
    + rewrite (epoch_body_length _ _ _ E). lia.
    + exact (epoch_body_inv _ _ _ Ha E I).
Qed.

Lemma train_inv (n : nat) (w0 : world) :
  loop_inv file0 (fst (train n w0 file0)).
Proof.
  unfold train. apply run_epochs_inv; [reflexivity|]. apply initial_inv.
Qed.

(** A run that no exception stops has one record per epoch. *)
Lemma run_epochs_complete (n : nat) :
  forall (a : nat) (s : loop_state),
    snd (run_epochs (seq a n) s) = None ->
    List.length (history (fst (run_epochs (seq a n) s)))
    = (List.length (history s) + n)%nat.
Proof.
  induction n as [|n IH]; intros a s H; cbn in *; [lia|].
  destruct (epoch_body a s) as [s' [e|]] eqn:E; [discriminate H|].
  rewrite (IH _ _ H), (epoch_body_length _ _ _ E). lia.
Qed.

End Loop.

(** Claim C2, with the sentinel the code has.  The record at position [k]
    of the history is the one of epoch [k], and that epoch wrote the
    checkpoint exactly when its test loss is below 1e9 and below the test
    loss of every earlier epoch whose loss is a number. *)
Theorem checkpoint_written_iff `{Trainer} (n : nat) (w0 : world)
  (file0 : option params) (k : nat) (r : epoch_report) :
  nth_error (history (fst (train n w0 file0))) k = Some r ->
  ep_epoch r = k /\
  (ep_saved r = true <->
   (ep_test_loss r <? 1e9)%float = true /\
   forall j rj, (j < k)%nat ->
     nth_error (history (fst (train n w0 file0))) j = Some rj ->
     is_nan (ep_test_loss rj) = false ->
     (ep_test_loss r <? ep_test_loss rj)%float = true).
Proof.
  intros E. pose proof (train_inv file0 n w0) as I. split.
  - exact (inv_epoch _ _ I k r E).
  - exact (inv_saved _ _ I k r E).
Qed.

Lemma checkpoint_written_iff_witness :
  let hist := history (fst (@train scripted 3 (0%nat, [5; 3; 4]%float) None)) in
  let r := @mkReport scripted 1 0 3 true 2%nat in
  ep_epoch r = 1%nat /\
  (ep_saved r = true <->
   (ep_test_loss r <? 1e9)%float = true /\
   forall j rj, (j < 1)%nat -> nth_error hist j = Some rj ->
     is_nan (ep_test_loss rj) = false ->
     (ep_test_loss r <? ep_test_loss rj)%float = true).
Proof.
  exact (@checkpoint_written_iff scripted 3 (0%nat, [5; 3; 4]%float) None 1
           (@mkReport scripted 1 0 3 true 2%nat) eq_refl).
Defined.

(** Claim C2 as it is worded, with an infinite sentinel, fails on a run
    whose first test loss is 2e9: the loss is below infinity and there
    is no earlier epoch, yet nothing is written. *)
Lemma checkpoint_first_epoch_not_always_written :
  let hist :=
    history (fst (@train scripted NUM_EPOCHS
                    (0%nat, repeat 2e9%float NUM_EPOCHS) None)) in
  ~ (forall k r, nth_error hist k = Some r ->
       (ep_saved r = true <->
        (ep_test_loss r <? infinity)%float = true /\
        forall j rj, (j < k)%nat -> nth_error hist j = Some rj ->
          (ep_test_loss r <? ep_test_loss rj)%float = true)).
Proof.
  intros hist C.
  specialize (C 0%nat (@mkReport scripted 0 0 2e9 false 1%nat) eq_refl).
  destruct C as [_ C].
  assert (false = true) as F; [|discriminate F].
  apply C. split; [reflexivity|]. intros j rj Hj. lia.
Qed.

(** Claim C7, for the runs that write at all.  After any number of
    epochs, if some test loss so far was below 1e9, the file holds the
    parameters the model had at the end of an epoch that no epoch
    undercuts, the first one to reach that loss. *)
Theorem checkpoint_holds_best `{Trainer} (n : nat) (w0 : world)
  (file0 : option params) :
  (exists r, In r (history (fst (train n w0 file0))) /\
             (ep_test_loss r <? 1e9)%float = true) ->
  exists k rk,
    nth_error (history (fst (train n w0 file0))) k = Some rk /\
    ep_epoch rk = k /\
    checkpoint (fst (train n w0 file0)) = Some (ep_params rk) /\
    (forall r, In r (history (fst (train n w0 file0))) ->
       (ep_test_loss r <? ep_test_loss rk)%float = false) /\
    (forall j rj, (j < k)%nat ->
       nth_error (history (fst (train n w0 file0))) j = Some rj ->
       is_nan (ep_test_loss rj) = false ->
       (ep_test_loss rk <? ep_test_loss rj)%float = true).
Proof.
  intros [r [Hr L]]. pose proof (train_inv file0 n w0) as I.
  destruct (inv_file _ _ I) as [[E _] | [k [rk [Ek [Sk [El F]]]]]].
  - pose proof (inv_min _ _ I r Hr) as M. rewrite E in M.
    change initial_best_loss with 1e9%float in M. congruence.
  - exists k, rk. repeat split.
    + exact Ek.
    + exact (inv_epoch _ _ I k rk Ek).
    + exact F.
    + intros r' Hr'. rewrite El. exact (inv_min _ _ I r' Hr').
    + exact (proj2 (proj1 (inv_saved _ _ I k rk Ek) Sk)).
Qed.

Lemma checkpoint_holds_best_witness :
  exists k rk,
    nth_error (history (fst (@train scripted 3 (0%nat, [5; 3; 4]%float) None))) k
      = Some rk /\
    ep_epoch rk = k /\
    checkpoint (fst (@train scripted 3 (0%nat, [5; 3; 4]%float) None))
      = Some (ep_params rk) /\
    (forall r,
       In r (history (fst (@train scripted 3 (0%nat, [5; 3; 4]%float) None))) ->
       (ep_test_loss r <? ep_test_loss rk)%float = false) /\
    (forall j rj, (j < k)%nat ->
       nth_error (history (fst (@train scripted 3 (0%nat, [5; 3; 4]%float) None))) j
         = Some rj ->
       is_nan (ep_test_loss rj) = false ->
       (ep_test_loss rk <? ep_test_loss rj)%float = true).
Proof.
  apply (@checkpoint_holds_best scripted 3 (0%nat, [5; 3; 4]%float) None).
  exists (@mkReport scripted 1 0 3 true 2%nat). split.
  - right. left. reflexivity.
  - reflexivity.
Defined.

(** Claim C7 as it is worded fails on a complete run of fifty epochs whose
    test losses are all 2e9: the file was absent and stays absent. *)
Lemma checkpoint_absent_after_poor_run :
  snd (@train scripted NUM_EPOCHS (0%nat, repeat 2e9%float NUM_EPOCHS) None)
    = None /\
  ~ (exists k rk,
       nth_error
         (history (fst (@train scripted NUM_EPOCHS
                          (0%nat, repeat 2e9%float NUM_EPOCHS) None))) k
         = Some rk /\
       checkpoint (fst (@train scripted NUM_EPOCHS
                          (0%nat, repeat 2e9%float NUM_EPOCHS) None))
         = Some (ep_params rk) /\
       forall r,
         In r (history (fst (@train scripted NUM_EPOCHS
                               (0%nat, repeat 2e9%float NUM_EPOCHS) None))) ->
         (ep_test_loss r <? ep_test_loss rk)%float = false).
Proof.
  split; [vm_compute; reflexivity|].
  intros [k [rk [_ [F _]]]].
  assert (checkpoint (fst (@train scripted NUM_EPOCHS
                             (0%nat, repeat 2e9%float NUM_EPOCHS) None))
          = None) as E by (vm_compute; reflexivity).
  rewrite E in F. discriminate F.
Qed.

(** Claim C10.  After any number of epochs, no epoch whose test loss is
    at least 1e9 wrote the checkpoint; and when every test loss is at
    least 1e9 the file is what it was before the run.  The run itself is
    a total function of its inputs. *)
Theorem no_checkpoint_from_sentinel_up `{Trainer} (n : nat) (w0 : world)
  (file0 : option params) :
  (forall r, In r (history (fst (train n w0 file0))) ->
     (1e9 <=? ep_test_loss r)%float = true -> ep_saved r = false) /\
  ((forall r, In r (history (fst (train n w0 file0))) ->
      (1e9 <=? ep_test_loss r)%float = true) ->
   checkpoint (fst (train n w0 file0)) = file0 /\
   forall r, In r (history (fst (train n w0 file0))) -> ep_saved r = false).
Proof.
  pose proof (train_inv file0 n w0) as I.
  assert (forall r, In r (history (fst (train n w0 file0))) ->
     (1e9 <=? ep_test_loss r)%float = true -> ep_saved r = false) as A.
  { intros r Hr G. apply not_true_is_false. intros S.
    apply In_nth_error in Hr as [k Ek].
    apply (inv_saved _ _ I k r Ek) in S as [L _].
    change initial_best_loss with 1e9%float in L.
    rewrite (leb_not_ltb _ _ G) in L. discriminate L. }
  split; [exact A|].
  intros G. split; [|intros r Hr; exact (A r Hr (G r Hr))].
  destruct (inv_file _ _ I) as [[_ [F _]] | [k [rk [Ek [Sk _]]]]];
    [exact F|].
  apply nth_error_In in Ek. rewrite (A rk Ek (G rk Ek)) in Sk. discriminate Sk.
Qed.

Lemma no_checkpoint_from_sentinel_up_witness :
  (forall r,
     In r (history (fst (@train scripted 3 (0%nat, [2e9; 1e9; 3e9]%float) (Some 7%nat)))) ->
     (1e9 <=? ep_test_loss r)%float = true -> ep_saved r = false) /\
  checkpoint (fst (@train scripted 3 (0%nat, [2e9; 1e9; 3e9]%float) (Some 7%nat)))
    = Some 7%nat.
Proof.
  pose proof (@no_checkpoint_from_sentinel_up scripted 3
                (0%nat, [2e9; 1e9; 3e9]%float) (Some 7%nat)) as [A B].
  split; [exact A|].
  apply B. intros r [<- | [<- | [<- | []]]]; reflexivity.
Defined.

(** * The sampler *)

Section Sampler.
Context `{V : Vision}.

(** [__getitem__] never assigns an attribute of [self]. *)
Lemma getitem_self (idx : Z) (draw : float) (jit : jitter_draw)
  (self : XYDataset) :
  fst (getitem idx draw jit self) = self.
Proof.
  unfold getitem, mbind, attr, call, mret.
  destruct (py_index (image_paths self) idx) as [path|e]; [|reflexivity].
  destruct (image_open path) as [file|e]; [|reflexivity].
  destruct (get_x (basename path)) as [x|e]; [|reflexivity].
  destruct (get_y (basename path)) as [y|e]; [|reflexivity].
  destruct (image_load file) as [img|e]; [|reflexivity].
  destruct (flip_branch draw (img, x)) as [img' x'].
  destruct (jitter (color_jitter self) jit img') as [out|e]; [|reflexivity].
  destruct (normalize _ _ _) as [t|e]; reflexivity.
Qed.

(** What [__getitem__] returns, step by step. *)
Lemma getitem_run (idx : Z) (draw : float) (jit : jitter_draw)
  (self : XYDataset) :
  snd (getitem idx draw jit self) =
  (path <- py_index (image_paths self) idx ;;
   file <- image_open path ;;
   x <- get_x (basename path) ;;
   y <- get_y (basename path) ;;
   img <- image_load file ;;
   t <- pipeline (color_jitter self) jit (fst (flip_branch draw (img, x))) ;;
   Ok (t, [f32 (snd (flip_branch draw (img, x))); f32 y])).
Proof.
  unfold getitem, pipeline, mbind, attr, call, mret, bind.
  destruct (py_index (image_paths self) idx) as [path|e]; [|reflexivity].
  destruct (image_open path) as [file|e]; [|reflexivity].
  destruct (get_x (basename path)) as [x|e]; [|reflexivity].
  destruct (get_y (basename path)) as [y|e]; [|reflexivity].
  destruct (image_load file) as [img|e]; [|reflexivity].
  destruct (flip_branch draw (img, x)) as [img' x']. cbn [fst snd].
  destruct (jitter (color_jitter self) jit img') as [out|e]; [|reflexivity].
  destruct (normalize _ _ _) as [t|e]; reflexivity.
Qed.

Lemma flip_branch_bands (draw : float) (img : image) (x : float) :
  bands (fst (flip_branch draw (img, x))) = bands img.
Proof.
  unfold flip_branch. destruct (0.5 <? draw)%float; reflexivity.
Qed.

Lemma has_shape_intro (t : tensor) (c h w : nat) :
  List.length t = c ->
  (forall plane, In plane t ->
     List.length plane = h /\
     forall line, In line plane -> List.length line = w) ->
  has_shape t c h w = true.
Proof.
  intros L P. unfold has_shape. apply andb_true_intro. split.
  - now apply Nat.eqb_eq.
  - apply forallb_forall. intros plane Hp. destruct (P plane Hp) as [Hh Hw].
    apply andb_true_intro. split; [now apply Nat.eqb_eq|].
    apply forallb_forall. intros line Hl. apply Nat.eqb_eq. now apply Hw.
Qed.

Lemma has_shape_elim (t : tensor) (c h w : nat) :
  has_shape t c h w = true ->
  List.length t = c /\
  forall plane, In plane t ->
    List.length plane = h /\
    forall line, In line plane -> List.length line = w.
Proof.
  unfold has_shape. intros H. apply andb_prop in H as [L P].
  apply Nat.eqb_eq in L. split; [exact L|].
  rewrite forallb_forall in P. intros plane Hp.
  specialize (P plane Hp). apply andb_prop in P as [Hh Hw].
  apply Nat.eqb_eq in Hh. split; [exact Hh|].
  rewrite forallb_forall in Hw. intros line Hl. apply Nat.eqb_eq. now apply Hw.
Qed.

Lemma to_tensor_shape (img : image) (h w : nat) :
  List.length (rows img) = h ->
  (forall row, In row (rows img) -> List.length row = w) ->
  has_shape (to_tensor img) (bands img) h w = true.
Proof.
  intros Hh Hw. apply has_shape_intro.
  - unfold to_tensor. now rewrite length_map, length_seq.
  - intros plane Hp. unfold to_tensor in Hp.
    apply in_map_iff in Hp as [c [<- _]]. split.
    + now rewrite length_map.
    + intros line Hl. apply in_map_iff in Hl as [row [<- Hr]].
      rewrite length_map. now apply Hw.
Qed.

Lemma has_shape_rev (t : tensor) (c h w : nat) :
  has_shape t c h w = true -> has_shape (rev t) c h w = true.
Proof.
  intros H. apply has_shape_elim in H as [L P]. apply has_shape_intro.
  - now rewrite length_rev.
  - intros plane Hp. apply P. now apply in_rev.
Qed.

Lemma normalize_plane_shape (m s : float) (plane : list (list float))
  (h w : nat) :
  List.length plane = h ->
  (forall line, In line plane -> List.length line = w) ->
  List.length (normalize_plane m s plane) = h /\
  forall line, In line (normalize_plane m s plane) -> List.length line = w.
Proof.
  intros Hh Hw. unfold normalize_plane. split.
  - now rewrite length_map.
  - intros line Hl. apply in_map_iff in Hl as [l0 [<- H0]].
    rewrite length_map. now apply Hw.
Qed.

Lemma normalize_planes_shape (h w : nat) (t : tensor) :
  forall mean std : list float,
    List.length mean = List.length t -> List.length std = List.length t ->
    has_shape t (List.length t) h w = true ->
    has_shape (normalize_planes t mean std) (List.length t) h w = true.
Proof.
  induction t as [|plane t IH]; intros mean std Lm Ls H.
  - destruct mean, std; reflexivity.
  - destruct mean as [|m mean]; [discriminate Lm|].
    destruct std as [|s std]; [discriminate Ls|].
    cbn in Lm, Ls. apply has_shape_elim in H as [_ P].
    assert (has_shape t (List.length t) h w = true) as Ht.
    { apply has_shape_intro; [reflexivity|].
      intros p Hp. apply P. now right. }
    specialize (IH mean std ltac:(lia) ltac:(lia) Ht).
    apply has_shape_elim in IH as [L' P'].
    destruct (P plane (or_introl eq_refl)) as [Hh Hw].
    apply has_shape_intro.
    + cbn. now rewrite L'.
    + intros p [<- | Hp].
      * now apply normalize_plane_shape.
      * now apply P'.
Qed.

Context (laws : vision_laws).

Lemma resized_shape (img : image) :
  has_shape (rev (to_tensor (resize img (224%nat, 224%nat))))
    (bands img) 224 224 = true.
Proof.
  apply has_shape_rev.
  rewrite <- (resize_bands laws img (224%nat, 224%nat)).
  apply to_tensor_shape.
  - apply (resize_height laws).
  - intros row. apply (resize_width laws).
Qed.

(** A jitter that raises ends the pipeline. *)
Lemma pipeline_jitter_raises (cj : ColorJitter) (jit : jitter_draw)
  (img : image) (e : exn) :
  jitter cj jit img = Raise e -> pipeline cj jit img = Raise e.
Proof.
  intros J. unfold pipeline. now rewrite J.
Qed.

(** On a picture of three bands that the jitter takes, the pipeline
    returns a 3 x 224 x 224 tensor. *)
Lemma pipeline_rgb (cj : ColorJitter) (jit : jitter_draw) (img out : image) :
  bands img = 3%nat ->
  jitter cj jit img = Ok out ->
  exists t, pipeline cj jit img = Ok t /\ has_shape t 3 224 224 = true.
Proof.
  intros B J. pose proof (resized_shape out) as S.
  rewrite (jitter_bands laws _ _ _ _ J), B in S.
  unfold pipeline. rewrite J. cbn [bind].
  set (t := rev (to_tensor (resize out (224%nat, 224%nat)))) in *.
  pose proof (proj1 (has_shape_elim _ _ _ _ S)) as L.
  unfold normalize. rewrite L. cbn [List.length Nat.eqb andb].
  eexists. split; [reflexivity|].
  rewrite <- L. apply normalize_planes_shape; rewrite L; auto.
Qed.

(** On a picture of another number of bands that the jitter takes,
    [normalize] raises. *)
Lemma pipeline_not_rgb (cj : ColorJitter) (jit : jitter_draw)
  (img out : image) :
  bands img <> 3%nat ->
  jitter cj jit img = Ok out ->
  pipeline cj jit img = Raise RuntimeError.
Proof.
  intros B J. pose proof (resized_shape out) as S.
  rewrite (jitter_bands laws _ _ _ _ J) in S.
  unfold pipeline. rewrite J. cbn [bind].
  set (t := rev (to_tensor (resize out (224%nat, 224%nat)))) in *.
  pose proof (proj1 (has_shape_elim _ _ _ _ S)) as L.
  unfold normalize. rewrite L. cbn [List.length].
  destruct (Nat.eqb_spec (bands img) 3); [contradiction|reflexivity].
Qed.

(** What the pipeline returns, when it returns, is a 3 x 224 x 224 tensor
    made from a picture of three bands. *)
Lemma pipeline_returns (cj : ColorJitter) (jit : jitter_draw) (img : image)
  (t : tensor) :
  pipeline cj jit img = Ok t ->
  bands img = 3%nat /\ has_shape t 3 224 224 = true /\
  exists out, jitter cj jit img = Ok out.
Proof.
  intros E. destruct (jitter cj jit img) as [out|e] eqn:J.
  - destruct (Nat.eq_dec (bands img) 3) as [B|B].
    + destruct (pipeline_rgb cj jit img out B J) as [t' [E' S]].
      rewrite E in E'. injection E' as <-. eauto.
    + rewrite (pipeline_not_rgb cj jit img out B J) in E. discriminate E.
  - rewrite (pipeline_jitter_raises cj jit img e J) in E. discriminate E.
Qed.

End Sampler.

Lemma resize_nearest_laws : @vision_laws demo_vision.
Proof.
  split.
  - intros cj j img out E. cbn in E. now injection E as <-.
  - intros img [h w]. reflexivity.
  - intros img h w. cbn. now rewrite length_map, length_seq.
  - intros img h w row H. cbn in H.
    apply in_map_iff in H as [i [<- _]].
    now rewrite length_map, length_seq.
Qed.

(** Claim C1, against the code.  On a dataset built with
    [random_hflips = False], an access whose draw exceeds 0.5 sends the
    mirrored picture through the rest of the pipeline and returns the
    negated x: the flag is never read. *)
Theorem getitem_flips_with_flag_off `{Vision} (self : XYDataset) (idx : Z)
  (draw : float) (jit : jitter_draw) (path : string) (file : picture)
  (img : image) (x y : float) :
  random_hflips self = false ->
  py_index (image_paths self) idx = Ok path ->
  image_open path = Ok file ->
  image_load file = Ok img ->
  get_x (basename path) = Ok x ->
  get_y (basename path) = Ok y ->
  (0.5 <? draw)%float = true ->
  snd (getitem idx draw jit self) =
  (t <- pipeline (color_jitter self) jit (hflip img) ;;
   Ok (t, [f32 (- x); f32 y])).
Proof.
  intros _ Hp Hi Hl Hx Hy Hd.
  rewrite getitem_run, Hp. cbn [bind]. rewrite Hi. cbn [bind].
  rewrite Hx. cbn [bind]. rewrite Hy. cbn [bind]. rewrite Hl. cbn [bind].
  unfold flip_branch. rewrite Hd. reflexivity.
Qed.

Lemma getitem_flips_with_flag_off_witness :
  snd (@getitem demo_vision 0 0.75%float tt demo_dataset) =
  (t <- @pipeline demo_vision (color_jitter demo_dataset) tt (hflip red_blue) ;;
   Ok (t, [f32 (- 1); f32 0])).
Proof.
  apply (@getitem_flips_with_flag_off demo_vision demo_dataset 0 0.75%float tt
           "dataset/xy_100_050_a.jpg" red_blue red_blue 1%float 0%float);
    vm_compute; reflexivity.
Defined.

(** An access returns on a picture of three bands whose file opens and
    decodes, whose name parses and which the jitter takes. *)
Lemma getitem_rgb_returns `{Vision} (laws : vision_laws) (self : XYDataset)
  (idx : Z) (draw : float) (jit : jitter_draw) (path : string)
  (file : picture) (img out : image) (x y : float) :
  py_index (image_paths self) idx = Ok path ->
  image_open path = Ok file ->
  get_x (basename path) = Ok x ->
  get_y (basename path) = Ok y ->
  image_load file = Ok img ->
  bands img = 3%nat ->
  jitter (color_jitter self) jit (fst (flip_branch draw (img, x))) = Ok out ->
  exists t target,
    snd (getitem idx draw jit self) = Ok (t, target) /\
    has_shape t 3 224 224 = true.
Proof.
  intros Hp Hi Hx Hy Hl Hb Hj.
  rewrite getitem_run, Hp. cbn [bind]. rewrite Hi. cbn [bind].
  rewrite Hx. cbn [bind]. rewrite Hy. cbn [bind]. rewrite Hl. cbn [bind].
  destruct (pipeline_rgb laws (color_jitter self) jit
              (fst (flip_branch draw (img, x))) out) as [t [E S]].
  - now rewrite flip_branch_bands.
  - exact Hj.
  - rewrite E. cbn [bind]. eauto.
Qed.




Lemma getitem_target_y `{Vision} (self : XYDataset) (idx : Z)
  (draw : float) (jit : jitter_draw) (t : tensor) (target : list float) :
  snd (getitem idx draw jit self) = Ok (t, target) ->
  exists path d,
    py_index (image_paths self) idx = Ok path /\
    py_int (slice 7 10 (basename path)) = Ok d /\
    get_y (basename path) = Ok ((float_of_Z d - 50) / 50)%float /\
    List.length target = 2%nat /\
    nth_error target 1 = Some (f32 ((float_of_Z d - 50) / 50)%float).
Proof.
  rewrite getitem_run. intros E.
  destruct (py_index (image_paths self) idx) as [path|e] eqn:Hp;
    [|discriminate E].
  cbn [bind] in E.
  destruct (image_open path) as [file|e]; [|discriminate E]. cbn [bind] in E.
  destruct (get_x (basename path)) as [x|e]; [|discriminate E].
  cbn [bind] in E.
  destruct (get_y (basename path)) as [y|e] eqn:Hy; [|discriminate E].
  cbn [bind] in E.
  destruct (image_load file) as [img|e]; [|discriminate E]. cbn [bind] in E.
  destruct (pipeline _ _ _) as [t'|e]; [|discriminate E]. cbn [bind] in E.
  injection E as _ <-.
  unfold get_y in Hy.
  destruct (py_int (slice 7 10 (basename path))) as [d|e] eqn:Hd;
    [|discriminate Hy].
  cbn [bind] in Hy. unfold decode, float_of_int in Hy.
  destruct (is_infinity (float_of_Z d)) eqn:Hinf; [discriminate Hy|].
  cbn [bind] in Hy. injection Hy as <-.
  exists path, d.
  split; [reflexivity|]. split; [exact Hd|].
  split; [|split; reflexivity].
  unfold get_y. rewrite Hd. cbn [bind]. unfold decode, float_of_int.
  now rewrite Hinf.
Qed.

(** Claim C9, with the element type of the tensor.  Whatever the two
    random draws, the target an access returns has two elements, and the
    second is the float32 rounding of [(int(basename[7:10]) - 50.0) / 50.0],
    the value [get_y] decodes from the filename. *)
Theorem getitem_y_from_filename `{Vision} (self : XYDataset) (idx : Z)
  (draw : float) (jit : jitter_draw) (t : tensor) (target : list float) :
  snd (getitem idx draw jit self) = Ok (t, target) ->
  exists path d,
    py_index (image_paths self) idx = Ok path /\
    py_int (slice 7 10 (basename path)) = Ok d /\
    get_y (basename path) = Ok ((float_of_Z d - 50) / 50)%float /\
    List.length target = 2%nat /\
    nth_error target 1 = Some (f32 ((float_of_Z d - 50) / 50)%float).
Proof.
  exact (getitem_target_y self idx draw jit t target).
Qed.

Lemma getitem_y_from_filename_witness :
  exists t target,
    snd (@getitem demo_vision 0 0.75%float tt demo_dataset) = Ok (t, target) /\
    exists path d,
      py_index (image_paths demo_dataset) 0 = Ok path /\
      py_int (slice 7 10 (basename path)) = Ok d /\
      get_y (basename path) = Ok ((float_of_Z d - 50) / 50)%float /\
      List.length target = 2%nat /\
      nth_error target 1 = Some (f32 ((float_of_Z d - 50) / 50)%float).
Proof.
  destruct (@getitem_rgb_returns demo_vision resize_nearest_laws demo_dataset 0
              0.75%float tt "dataset/xy_100_050_a.jpg" red_blue red_blue
              (hflip red_blue) 1%float 0%float
              ltac:(vm_compute; reflexivity) ltac:(vm_compute; reflexivity)
              ltac:(vm_compute; reflexivity) ltac:(vm_compute; reflexivity)
              ltac:(vm_compute; reflexivity) ltac:(reflexivity)
              ltac:(vm_compute; reflexivity))
    as [t [target [E _]]].
  exists t, target. split; [exact E|].
  exact (@getitem_y_from_filename demo_vision demo_dataset 0 0.75%float tt
           t target E).
Defined.

(** * Paths and patterns *)

Lemma fnmatch_star (p name : string) :
  fnmatch (String "*" p) name =
  fnmatch p name ||
  match name with
  | String _ n' => fnmatch (String "*" p) n'
  | EmptyString => false
  end.
Proof. destruct name; reflexivity. Qed.

Lemma fnmatch_literal (p : string) :
  is_literal p = true -> forall name, fnmatch p name = String.eqb p name.
Proof.
  induction p as [|c p IH]; intros L name.
  - destruct name; reflexivity.
  - cbn in L. apply andb_prop in L as [L Lp]. apply andb_prop in L as [L1 L2].
    apply negb_true_iff in L1, L2.
    apply Ascii.eqb_neq in L1, L2.
    assert (fnmatch (String c p) name =
            match name with
            | String d n' => Ascii.eqb c d && fnmatch p n'
            | EmptyString => false
            end) as E.
    { destruct c as [[] [] [] [] [] [] [] []]; try reflexivity; congruence. }
    rewrite E. destruct name as [|d n']; [reflexivity|].
    cbn. rewrite (IH Lp n').
    destruct (Ascii.eqb c d); reflexivity.
Qed.

(** [*suffix] matches the names that end with a literal [suffix]. *)
Lemma fnmatch_star_suffix (suffix : string) :
  is_literal suffix = true ->
  forall name,
    fnmatch (String "*" suffix) name = true <->
    exists stem, name = stem ++ suffix.
Proof.
  intros L. induction name as [|c n IH].
  - rewrite fnmatch_star, (fnmatch_literal _ L), orb_false_r. split.
    + intros E. apply String.eqb_eq in E. exists "". now rewrite E.
    + intros [stem E]. apply String.eqb_eq.
      destruct stem; [exact (eq_sym E)|discriminate E].
  - rewrite fnmatch_star, (fnmatch_literal _ L). split.
    + intros H. apply orb_prop in H as [E|H].
      * apply String.eqb_eq in E. exists "". now rewrite E.
      * apply IH in H as [stem ->]. now exists (String c stem).
    + intros [stem E]. apply orb_true_intro.
      destruct stem as [|c' stem]; cbn in E.
      * left. apply String.eqb_eq. exact (eq_sym E).
      * right. injection E as _ ->. apply IH. now exists stem.
Qed.

Lemma after_last_slash_plain (t acc : string) :
  has_slash t = false -> after_last_slash t acc = acc.
Proof.
  revert acc. induction t as [|c t IH]; intros acc H; [reflexivity|].
  cbn in H |- *. apply orb_false_elim in H as [Hc Ht].
  rewrite Hc. now apply IH.
Qed.

(** After a slash only what follows it counts. *)
Lemma after_last_slash_app (s t : string) :
  has_slash t = false ->
  forall acc, after_last_slash (s ++ String "/" t) acc = t.
Proof.
  intros Ht. induction s as [|c s IH]; intros acc; cbn.
  - now apply after_last_slash_plain.
  - destruct (Ascii.eqb c "/"); apply IH.
Qed.

Lemma append_assoc_slash (a b : string) :
  a ++ "/" ++ b = a ++ String "/" b.
Proof. reflexivity. Qed.

Lemma last_char_split (a : string) (c : ascii) :
  last_char a = Some c -> exists a', a = a' ++ String c "".
Proof.
  induction a as [|d a IH]; [discriminate|].
  cbn. destruct a as [|d' a'].
  - intros E. injection E as ->. now exists "".
  - intros E. destruct (IH E) as [p Hp]. exists (String d p).
    cbn. now rewrite <- Hp.
Qed.

Lemma append_assoc (a b c : string) : (a ++ b) ++ c = a ++ b ++ c.
Proof. induction a as [|d a IH]; [reflexivity|]. cbn. now rewrite IH. Qed.

(** The last component of [directory/pattern] is the pattern. *)
Lemma basename_join (a b : string) :
  has_slash b = false -> basename (path_join a b) = b.
Proof.
  intros Hb. unfold basename, path_join.
  assert (starts_with "/" b = false) as ->.
  { destruct b as [|c r]; [reflexivity|]. cbn [has_slash] in Hb.
    apply orb_false_elim in Hb as [Hc _]. unfold starts_with.
    rewrite Ascii.eqb_sym. exact Hc. }
  destruct (last_char a) as [c|] eqn:La.
  - destruct (Ascii.eqb_spec c "/") as [->|Nc].
    + destruct (last_char_split _ _ La) as [a' ->].
      rewrite append_assoc. cbn [append].
      now apply after_last_slash_app.
    + rewrite append_assoc_slash. now apply after_last_slash_app.
  - now apply after_last_slash_plain.
Qed.

Lemma append_length (a b : string) :
  String.length (a ++ b) = (String.length a + String.length b)%nat.
Proof. induction a as [|c a IH]; cbn; [reflexivity|]. now rewrite IH. Qed.

Lemma substring_prefix (a b : string) :
  substring 0 (String.length a) (a ++ b) = a.
Proof.
  induction a as [|c a IH]; cbn.
  - destruct b; reflexivity.
  - now rewrite IH.
Qed.

Lemma rstrip_slash_plain (a : string) :
  plain_dir a = true -> rstrip_slash a = a.
Proof.
  unfold plain_dir. induction a as [|c a IH]; [discriminate|].
  cbn [last_char rstrip_slash]. destruct a as [|c' a'].
  - intros H. cbn. apply negb_true_iff in H. now rewrite H.
  - intros H. rewrite (IH H). reflexivity.
Qed.

Lemma rstrip_slash_snoc (a : string) :
  plain_dir a = true -> rstrip_slash (a ++ "/") = a.
Proof.
  intros P. rewrite <- (rstrip_slash_plain a P) at 2.
  clear P. induction a as [|c a IH]; [reflexivity|].
  cbn [append rstrip_slash]. now rewrite IH.
Qed.

Lemma path_join_plain (dir name : string) :
  plain_dir dir = true -> has_slash name = false ->
  path_join dir name = dir ++ "/" ++ name.
Proof.
  unfold plain_dir, path_join. intros P N.
  assert (starts_with "/" name = false) as ->.
  { destruct name as [|c r]; [reflexivity|]. cbn [has_slash] in N.
    apply orb_false_elim in N as [Hc _]. unfold starts_with.
    rewrite Ascii.eqb_sym. exact Hc. }
  destruct (last_char dir) as [c|]; [|discriminate P].
  apply negb_true_iff in P. now rewrite P.
Qed.

(** [directory/*.jpg] is listed in [directory] itself. *)
Lemma dirname_join_plain (dir : string) :
  plain_dir dir = true -> dirname (path_join dir "*.jpg") = dir.
Proof.
  intros P. unfold dirname.
  rewrite basename_join by reflexivity.
  rewrite path_join_plain by (exact P || reflexivity).
  replace (dir ++ "/" ++ "*.jpg") with ((dir ++ "/") ++ "*.jpg")
    by apply append_assoc.
  rewrite append_length.
  replace (String.length (dir ++ "/") + String.length "*.jpg"
           - String.length "*.jpg")%nat
    with (String.length (dir ++ "/")) by lia.
  rewrite substring_prefix, rstrip_slash_snoc by exact P.
  destruct dir; [discriminate P|reflexivity].
Qed.

Lemma basename_plain (dir name : string) :
  has_slash name = false -> basename (dir ++ "/" ++ name) = name.
Proof.
  intros N. unfold basename. rewrite append_assoc_slash.
  now apply after_last_slash_app.
Qed.

Lemma filter_visible_jpg (l : list string) :
  filter (fnmatch "*.jpg") (filter (fun n => negb (is_hidden n)) l)
  = filter is_visible_jpg l.
Proof.
  induction l as [|n l IH]; [reflexivity|]. unfold is_visible_jpg in *.
  cbn [filter]. destruct (is_hidden n); cbn [negb andb filter].
  - exact IH.
  - destruct (fnmatch "*.jpg" n); now rewrite IH.
Qed.

Lemma ends_with_spec (suffix s : string) :
  ends_with suffix s = true <-> exists stem, s = stem ++ suffix.
Proof.
  induction s as [|c s IH]; cbn [ends_with].
  - rewrite orb_false_r. split.
    + intros E. apply String.eqb_eq in E. exists "". exact E.
    + intros [stem E]. apply String.eqb_eq.
      destruct stem; [exact E|discriminate E].
  - rewrite orb_true_iff, IH. split.
    + intros [E|[stem ->]].
      * apply String.eqb_eq in E. exists "". exact E.
      * now exists (String c stem).
    + intros [stem E]. destruct stem as [|c' stem]; cbn in E.
      * left. apply String.eqb_eq. exact E.
      * right. injection E as _ ->. now exists stem.
Qed.


(** The pattern [*.jpg] keeps the visible jpg files. *)
Lemma visible_jpg_entry (name : string) :
  is_visible_jpg name = jpg_entry name.
Proof.
  unfold is_visible_jpg, jpg_entry, is_hidden. f_equal.
  apply eq_true_iff_eq.
  rewrite (fnmatch_star_suffix ".jpg" eq_refl), ends_with_spec. reflexivity.
Qed.

Lemma glob1_jpg `{Vision} (dir : string) :
  glob1 dir "*.jpg" = filter jpg_entry (listdir dir).
Proof.
  unfold glob1.
  change (is_hidden "*.jpg") with false. cbv iota.
  rewrite filter_visible_jpg. apply filter_ext. exact visible_jpg_entry.
Qed.

Lemma has_magic_app (a b : string) :
  has_magic (a ++ b) = has_magic a || has_magic b.
Proof.
  induction a as [|c a IH]; [reflexivity|].
  cbn. rewrite IH. now rewrite !orb_assoc.
Qed.

Lemma has_magic_rstrip (s : string) :
  has_magic s = false -> has_magic (rstrip_slash s) = false.
Proof.
  induction s as [|c s IH]; [reflexivity|].
  cbn [has_magic rstrip_slash]. intros M.
  apply orb_false_elim in M as [Mc Ms]. specialize (IH Ms).
  destruct (rstrip_slash s) as [|c' s'].
  - destruct (Ascii.eqb c "/"); [reflexivity|].
    cbn [has_magic]. now rewrite Mc.
  - cbn [has_magic] in IH |- *. now rewrite Mc, IH.
Qed.

Lemma last_char_none (a : string) : last_char a = None -> a = "".
Proof.
  induction a as [|c a IH]; [reflexivity|].
  cbn. destruct a as [|c' a']; [discriminate|].
  intros E. specialize (IH E). discriminate IH.
Qed.

(** The directory part of [directory/*.jpg] has a wildcard only if the
    directory has one. *)
Lemma has_magic_dirname_join (dir : string) :
  has_magic dir = false ->
  has_magic (dirname (path_join dir "*.jpg")) = false.
Proof.
  intros M. unfold dirname.
  rewrite basename_join by reflexivity.
  assert (exists head,
            path_join dir "*.jpg" = head ++ "*.jpg" /\
            has_magic head = false) as [head [-> Mh]].
  { unfold path_join. cbn [starts_with Ascii.eqb].
    change (Ascii.eqb "/" "*") with false. cbv iota.
    destruct (last_char dir) as [c|] eqn:L.
    - destruct (Ascii.eqb c "/").
      + now exists dir.
      + exists (dir ++ "/"). split; [now rewrite append_assoc|].
        rewrite has_magic_app, M. reflexivity.
    - now exists "". }
  rewrite append_length.
  replace (String.length head + String.length "*.jpg"
           - String.length "*.jpg")%nat
    with (String.length head) by lia.
  rewrite substring_prefix.
  pose proof (has_magic_rstrip head Mh) as R.
  destruct (rstrip_slash head); [exact Mh|exact R].
Qed.

(** What [glob] returns for [directory/*.jpg]: the visible jpg files of
    the directories it expands the directory part to. *)
Lemma glob_jpg `{Vision} (dir : string) :
  glob (path_join dir "*.jpg") =
  flat_map (fun dir' => map (path_join dir') (filter jpg_entry (listdir dir')))
    (if negb (String.eqb (dirname (path_join dir "*.jpg"))
                         (path_join dir "*.jpg")) &&
        has_magic (dirname (path_join dir "*.jpg"))
     then glob_dirs (dirname (path_join dir "*.jpg"))
     else [dirname (path_join dir "*.jpg")]).
Proof.
  unfold glob. rewrite basename_join by reflexivity.
  apply flat_map_ext. intros dir'. now rewrite glob1_jpg.
Qed.

(** Without a wildcard in the directory, one directory is listed. *)
Lemma glob_jpg_plain `{Vision} (dir : string) :
  has_magic dir = false ->
  glob (path_join dir "*.jpg") =
  map (path_join (dirname (path_join dir "*.jpg")))
      (filter jpg_entry (listdir (dirname (path_join dir "*.jpg")))).
Proof.
  intros M. rewrite glob_jpg, (has_magic_dirname_join dir M), andb_false_r.
  cbn [flat_map]. apply app_nil_r.
Qed.

Lemma len_value (self : XYDataset) :
  len self = (self, Ok (Z.of_nat (List.length (image_paths self)))).
Proof. reflexivity. Qed.



(** * The split *)

Lemma range_length (n : Z) : 0 <= n -> Z.of_nat (List.length (range n)) = n.
Proof.
  intros H. unfold range. rewrite length_map, length_seq. lia.
Qed.

Lemma range_NoDup (n : Z) : NoDup (range n).
Proof.
  unfold range. apply Injective_map_NoDup.
  - intros a b. lia.
  - apply seq_NoDup.
Qed.

Lemma py_slice_prefix {A : Type} (l : list A) (k : Z) :
  0 <= k <= Z.of_nat (List.length l) ->
  py_slice l 0 k = firstn (Z.to_nat k) l.
Proof.
  intros H. unfold py_slice, clamp_index.
  assert ((0 <? 0) = false) as -> by reflexivity.
  assert ((k <? 0) = false) as -> by lia.
  rewrite (Z.min_l 0) by lia. rewrite (Z.min_l k) by lia.
  cbn [Z.to_nat skipn]. now rewrite Nat.sub_0_r.
Qed.

Lemma py_slice_suffix {A : Type} (l : list A) (k : Z) :
  0 <= k <= Z.of_nat (List.length l) ->
  py_slice l k (Z.of_nat (List.length l)) = skipn (Z.to_nat k) l.
Proof.
  intros H. unfold py_slice, clamp_index.
  assert ((k <? 0) = false) as -> by lia.
  assert ((Z.of_nat (List.length l) <? 0) = false) as -> by lia.
  rewrite (Z.min_l k) by lia. rewrite Z.min_id.
  apply firstn_all2. rewrite length_skipn. lia.
Qed.

(** With [t] test samples out of [n], the two subsets are the two ends
    of the permutation. *)
Lemma split_with (n t : Z) (indices : list Z) :
  num_test n = Ok t -> 0 <= t <= n ->
  Z.of_nat (List.length indices) = n ->
  split n indices =
  Ok (firstn (Z.to_nat (n - t)) indices, skipn (Z.to_nat (n - t)) indices).
Proof.
  intros Ht Hr Hl. unfold split. rewrite Ht. cbn [bind].
  unfold random_split. cbn [sum_lengths].
  assert ((n - t + (t + 0) =? n) = true) as -> by lia.
  cbn [bind subsets].
  rewrite py_slice_prefix by lia.
  replace (0 + (n - t) + t) with (Z.of_nat (List.length indices)) by lia.
  replace (0 + (n - t)) with (n - t) by lia.
  rewrite py_slice_suffix by lia. reflexivity.
Qed.

Lemma split_partition (n t : Z) (indices : list Z) :
  num_test n = Ok t -> 0 <= t <= n ->
  Permutation indices (range n) ->
  exists train test,
    split n indices = Ok (train, test) /\
    Z.of_nat (List.length test) = t /\
    Z.of_nat (List.length train) = n - t /\
    (train ++ test)%list = indices /\
    Permutation (train ++ test)%list (range n) /\
    NoDup (train ++ test)%list.
Proof.
  intros Ht Hr P.
  assert (Z.of_nat (List.length indices) = n) as L.
  { rewrite (Permutation_length P). apply range_length. lia. }
  exists (firstn (Z.to_nat (n - t)) indices), (skipn (Z.to_nat (n - t)) indices).
  split; [now apply split_with|].
  rewrite length_skipn, length_firstn, firstn_skipn.
  repeat split; try lia; try exact P.
  apply (Permutation_NoDup (Permutation_sym P)). apply range_NoDup.
Qed.

(** * Binary64 rounding *)

Lemma digits2_size (p : positive) : digits2_pos p = Pos.size p.
Proof. induction p; cbn; congruence. Qed.

Lemma size_bounds (p : positive) :
  2 ^ (Z.pos (Pos.size p) - 1) <= Z.pos p < 2 ^ Z.pos (Pos.size p).
Proof.
  split.
  - pose proof (Pos.size_le p) as H.
    assert (Z.pos (2 ^ Pos.size p) <= Z.pos p~0) as H' by exact H.
    rewrite Pos2Z.inj_pow in H'.
    replace (Z.pos (Pos.size p)) with (Z.succ (Z.pos (Pos.size p) - 1)) in H' by lia.
    rewrite Z.pow_succ_r in H' by lia. lia.
  - pose proof (Pos.size_gt p) as H.
    assert (Z.pos p < Z.pos (2 ^ Pos.size p)) as H' by exact H.
    now rewrite Pos2Z.inj_pow in H'.
Qed.

(** The number of digits is the only [d] with [2^(d-1) <= p < 2^d]. *)
Lemma size_unique (p : positive) (d : Z) :
  2 ^ (d - 1) <= Z.pos p < 2 ^ d -> Z.pos (Pos.size p) = d.
Proof.
  intros [L U]. pose proof (size_bounds p) as [L' U'].
  assert (0 < d) as Hd.
  { destruct (Z.ltb_spec 0 d); [assumption|].
    rewrite (Z.pow_neg_r 2 (d - 1)) in L by lia.
    destruct (Z.eq_dec d 0) as [->|]; [cbn in U; lia|].
    rewrite (Z.pow_neg_r 2 d) in U by lia. lia. }
  destruct (Z.lt_trichotomy (Z.pos (Pos.size p)) d) as [H|[H|H]]; [|exact H|].
  - assert (2 ^ Z.pos (Pos.size p) <= 2 ^ (d - 1))
      by (apply Z.pow_le_mono_r; lia). lia.
  - assert (2 ^ d <= 2 ^ (Z.pos (Pos.size p) - 1))
      by (apply Z.pow_le_mono_r; lia). lia.
Qed.

Lemma iter_xO (d : positive) (p : positive) :
  Z.pos (Pos.iter xO p d) = Z.pos p * 2 ^ Z.pos d.
Proof.
  revert p. induction d using Pos.peano_ind; intros p.
  - cbn. lia.
  - rewrite Pos.iter_succ. rewrite Pos2Z.inj_xO, IHd, Pos2Z.inj_succ.
    rewrite Z.pow_succ_r by lia. lia.
Qed.

Lemma iter_pos_nat {A : Type} (f : A -> A) (p : positive) (x : A) :
  iter_pos f p x = Nat.iter (Pos.to_nat p) f x.
Proof.
  revert x. induction p as [p IH|p IH|]; intros x; cbn [iter_pos].
  - rewrite !IH. rewrite Pos2Nat.inj_xI.
    replace (S (2 * Pos.to_nat p)) with (Pos.to_nat p + (Pos.to_nat p + 1))%nat
      by lia.
    rewrite !Nat.iter_add. reflexivity.
  - rewrite !IH. rewrite Pos2Nat.inj_xO.
    replace (2 * Pos.to_nat p)%nat with (Pos.to_nat p + Pos.to_nat p)%nat by lia.
    now rewrite Nat.iter_add.
  - reflexivity.
Qed.

Lemma shr_1_m (mrs : shr_record) :
  0 <= shr_m mrs -> shr_m (shr_1 mrs) = shr_m mrs / 2.
Proof.
  destruct mrs as [m r s]. cbn [shr_m]. intros H.
  destruct m as [|[p|p|]|p]; cbn; try reflexivity; try lia.
  - rewrite Pos2Z.inj_xI. apply Z.div_unique with 1; lia.
  - rewrite Pos2Z.inj_xO. apply Z.div_unique with 0; lia.
Qed.

Lemma iter_shr_1_m (k : nat) (mrs : shr_record) :
  0 <= shr_m mrs ->
  shr_m (Nat.iter k shr_1 mrs) = shr_m mrs / 2 ^ Z.of_nat k.
Proof.
  intros H. induction k as [|k IH].
  - cbn. now rewrite Z.div_1_r.
  - rewrite Nat.iter_succ, shr_1_m.
    + rewrite IH, Nat2Z.inj_succ, Z.pow_succ_r by lia.
      rewrite Z.div_div by lia. f_equal. lia.
    + rewrite IH. apply Z.div_pos; lia.
Qed.

Lemma round_nearest_even_near (m : Z) (l : location) :
  m <= round_nearest_even m l <= m + 1.
Proof.
  destruct l as [|[]]; cbn; try lia. destruct (Z.even m); lia.
Qed.

Lemma shr_value (mrs : shr_record) (e n : Z) :
  0 <= shr_m mrs -> 0 <= n ->
  shr_m (fst (shr mrs e n)) = shr_m mrs / 2 ^ n /\
  snd (shr mrs e n) = e + n.
Proof.
  intros Hm Hn. destruct n as [|p|p]; [| |lia]; cbn [shr fst snd].
  - rewrite Z.div_1_r. lia.
  - rewrite iter_pos_nat, iter_shr_1_m by exact Hm.
    now rewrite positive_nat_Z.
Qed.

Lemma shr_zero (mrs : shr_record) (e : Z) : shr mrs e 0 = (mrs, e).
Proof. reflexivity. Qed.

Lemma fexp_normal (d e : Z) :
  -1021 <= d + e -> fexp prec emax (d + e) - e = d - 53.
Proof.
  intros H. unfold fexp, SpecFloat.emin, prec, emax. lia.
Qed.

(** A mantissa of 53 digits is kept as it is. *)
Lemma binary_round_aux_exact (s : bool) (m : positive) (e : Z) :
  Z.pos (Pos.size m) = 53 -> -1074 <= e <= 971 ->
  binary_round_aux prec emax s (Z.pos m) e loc_Exact = S754_finite s m e.
Proof.
  intros D He. unfold binary_round_aux, shr_fexp.
  cbn [Zdigits2]. rewrite digits2_size, D.
  rewrite fexp_normal by lia. cbn [Z.sub Z.add Z.opp Z.pos_sub].
  rewrite shr_zero. cbn [shr_record_of_loc shr_m loc_of_shr_record
                          round_nearest_even Zdigits2].
  rewrite digits2_size, D, fexp_normal by lia.
  cbn [Z.sub Z.add Z.opp Z.pos_sub]. rewrite shr_zero. cbn [shr_m].
  assert ((e <=? emax - prec) = true) as ->; [|reflexivity].
  unfold emax, prec. lia.
Qed.

(** A longer mantissa loses [d - 53] digits and is rounded to one of its
    two neighbours. *)
Lemma binary_round_aux_near (s : bool) (P : positive) (e d : Z) :
  Z.pos (Pos.size P) = d -> 53 <= d -> -1021 <= d + e -> d + e <= 1000 ->
  exists (m2 : positive) (m1 n2 : Z),
    binary_round_aux prec emax s (Z.pos P) e loc_Exact
      = S754_finite s m2 (e + (d - 53) + n2) /\
    Z.pos P / 2 ^ (d - 53) <= m1 <= Z.pos P / 2 ^ (d - 53) + 1 /\
    0 <= n2 <= 1 /\ m1 = Z.pos m2 * 2 ^ n2.
Proof.
  intros D Hd Hlo Hhi.
  pose proof (size_bounds P) as [PL PU]. rewrite D in PL, PU.
  set (k := d - 53) in *.
  assert (0 <= k) as Hk by (unfold k; lia).
  set (q := Z.pos P / 2 ^ k).
  assert (2 ^ 52 <= q < 2 ^ 53) as [QL QU].
  { unfold q. split.
    - apply Z.div_le_lower_bound; [lia|].
      rewrite <- Z.pow_add_r by lia. replace (k + 52) with (d - 1) by (unfold k; lia).
      exact PL.
    - apply Z.div_lt_upper_bound; [lia|].
      rewrite <- Z.pow_add_r by lia. replace (k + 53) with d by (unfold k; lia).
      exact PU. }
  unfold binary_round_aux, shr_fexp. cbn [Zdigits2].
  rewrite digits2_size, D, fexp_normal by lia. fold k.
  destruct (shr_value (shr_record_of_loc (Z.pos P) loc_Exact) e k)
    as [V1 E1]; [cbn; lia | exact Hk |].
  destruct (shr (shr_record_of_loc (Z.pos P) loc_Exact) e k) as [mrs' e'].
  cbn [fst snd] in V1, E1. cbn [shr_record_of_loc shr_m] in V1. fold q in V1.
  subst e'.
  pose proof (round_nearest_even_near (shr_m mrs') (loc_of_shr_record mrs'))
    as R.
  set (m1 := round_nearest_even (shr_m mrs') (loc_of_shr_record mrs')) in *.
  rewrite V1 in R.
  assert (0 < m1) as M1pos by lia.
  destruct m1 as [|p1|p1] eqn:Em1; try lia.
  cbn [Zdigits2]. rewrite digits2_size.
  destruct (Z.eq_dec (Z.pos p1) (2 ^ 53)) as [Top|NotTop].
  - (* the rounding reached the next power of two *)
    assert (Z.pos (Pos.size p1) = 54) as D1.
    { apply size_unique. rewrite Top. split; [reflexivity|].
      apply Z.pow_lt_mono_r; lia. }
    rewrite D1, fexp_normal by lia.
    destruct (shr_value (shr_record_of_loc (Z.pos p1) loc_Exact) (e + k) (54 - 53))
      as [V2 E2]; [cbn; lia | lia |].
    destruct (shr (shr_record_of_loc (Z.pos p1) loc_Exact) (e + k) (54 - 53))
      as [mrs'' e''].
    cbn [fst snd] in V2, E2. cbn [shr_record_of_loc shr_m] in V2. subst e''.
    rewrite Top in V2. change (2 ^ 53 / 2 ^ (54 - 53)) with (2 ^ 52) in V2.
    rewrite V2. change (2 ^ 52) with (Z.pos (2 ^ 52)%positive).
    cbv iota.
    assert ((e + k + (54 - 53) <=? emax - prec) = true) as ->
      by (unfold emax, prec, k; lia).
    exists (2 ^ 52)%positive, (Z.pos p1), 1.
    split; [reflexivity|]. split; [lia|]. split; [lia|].
    rewrite Top. reflexivity.
  - assert (Z.pos (Pos.size p1) = 53) as D1.
    { apply size_unique. change (53 - 1) with 52. lia. }
    rewrite D1, fexp_normal by lia.
    change (53 - 53) with 0. rewrite shr_zero.
    cbn [shr_record_of_loc shr_m].
    assert ((e + k <=? emax - prec) = true) as ->
      by (unfold emax, prec, k; lia).
    exists p1, (Z.pos p1), 0.
    split; [now rewrite Z.add_0_r|]. split; [lia|]. split; [lia|].
    cbn. lia.
Qed.

(** [float(n)] is exact below 2^53: the mantissa is [n] shifted to 53
    digits. *)
Lemma binary_normalize_exact (p : positive) :
  Z.pos p < 2 ^ 53 ->
  exists mz : positive,
    binary_normalize prec emax (Z.pos p) 0 false
      = S754_finite false mz (Z.pos (Pos.size p) - 53) /\
    Z.pos mz = Z.pos p * 2 ^ (53 - Z.pos (Pos.size p)) /\
    Z.pos (Pos.size mz) = 53.
Proof.
  intros Hp. pose proof (size_bounds p) as [L U].
  assert (Z.pos (Pos.size p) <= 53) as Hs.
  { destruct (Z.le_gt_cases (Z.pos (Pos.size p)) 53) as [H|H]; [exact H|].
    assert (2 ^ 53 <= 2 ^ (Z.pos (Pos.size p) - 1))
      by (apply Z.pow_le_mono_r; lia). lia. }
  unfold binary_normalize, binary_round, shl_align.
  rewrite digits2_size, Z.add_0_r.
  assert (fexp prec emax (Z.pos (Pos.size p)) = Z.pos (Pos.size p) - 53) as ->.
  { unfold fexp, SpecFloat.emin, prec, emax. lia. }
  rewrite Z.sub_0_r.
  destruct (Z.pos (Pos.size p) - 53) as [|d|d] eqn:E; [|lia|].
  - exists p. replace (53 - Z.pos (Pos.size p)) with 0 by lia.
    rewrite Z.mul_1_r.
    split; [|split; [reflexivity|lia]].
    apply binary_round_aux_exact; lia.
  - assert (53 - Z.pos (Pos.size p) = Z.pos d) as E' by lia.
    assert (Z.pos (Pos.size (Pos.iter xO p d)) = 53) as D.
    { apply size_unique. rewrite iter_xO. split.
      - replace (53 - 1) with ((Z.pos (Pos.size p) - 1) + Z.pos d) by lia.
        rewrite Z.pow_add_r by lia. apply Z.mul_le_mono_nonneg_r; lia.
      - replace 53 with (Z.pos (Pos.size p) + Z.pos d) by lia.
        rewrite Z.pow_add_r by lia. apply Z.mul_lt_mono_pos_r; lia. }
    exists (Pos.iter xO p d). rewrite E'.
    split; [|split; [apply iter_xO|exact D]].
    apply binary_round_aux_exact; [exact D|lia].
Qed.

Lemma finite_53_valid (s : bool) (m : positive) (e : Z) :
  Z.pos (Pos.size m) = 53 -> -1074 <= e <= 971 ->
  valid_binary (S754_finite s m e) = true.
Proof.
  intros D He. unfold SpecFloat.valid_binary, bounded, canonical_mantissa.
  rewrite digits2_size, D.
  apply andb_true_intro. split.
  - apply Z.eqb_eq. unfold fexp, SpecFloat.emin, prec, emax. lia.
  - unfold emax, prec. lia.
Qed.

Lemma finite_not_infinity (x : float) (s : bool) (m : positive) (e : Z) :
  Prim2SF x = S754_finite s m e -> is_infinity x = false.
Proof.
  intros H. unfold is_infinity.
  rewrite FloatAxioms.eqb_spec, abs_spec, H. reflexivity.
Qed.

Lemma test_percent_spec :
  Prim2SF test_percent = S754_finite false tenth_mantissa (-56).
Proof. vm_compute. reflexivity. Qed.

(** The arithmetic behind the split: rounding [0.1 * n] to 53 digits moves
    it by less than the distance to the next integer. *)
Lemma tenth_floor (n s k m1 : Z) :
  0 < n < 2 ^ 51 ->
  2 <= s -> 52 <= k <= 53 ->
  Z.pos tenth_mantissa * (n * 2 ^ s) / 2 ^ k <= m1 <=
    Z.pos tenth_mantissa * (n * 2 ^ s) / 2 ^ k + 1 ->
  m1 / 2 ^ (56 + s - k) = n / 10.
Proof.
  intros Hn Hs Hk Hm.
  set (M := Z.pos tenth_mantissa) in *.
  set (K := n / 10).
  pose proof (Z.div_mod n 10 ltac:(lia)) as DM.
  pose proof (Z.mod_pos_bound n 10 ltac:(lia)) as MB. fold K in DM.
  set (X := 2 ^ s) in *.
  assert (4 <= X) as HX.
  { unfold X. change 4 with (2 ^ 2). apply Z.pow_le_mono_r; lia. }
  assert (0 < 2 ^ k <= 2 ^ 53) as HK.
  { split; [lia|]. apply Z.pow_le_mono_r; lia. }
  assert (2 ^ (56 + s - k) * 2 ^ k = 2 ^ 56 * X) as HT.
  { unfold X. rewrite <- !Z.pow_add_r by lia. f_equal. lia. }
  assert (0 < 2 ^ (56 + s - k)) as HTpos by (apply Z.pow_pos_nonneg; lia).
  set (T := 2 ^ (56 + s - k)) in *.
  set (Y := 2 ^ k) in *.
  assert (M = 7205759403792794) as HM by reflexivity.
  assert (2 ^ 56 = 72057594037927936) as H56 by reflexivity.
  assert (2 ^ 53 = 9007199254740992) as H53 by reflexivity.
  assert (2 ^ 51 = 2251799813685248) as H51 by reflexivity.
  rewrite H56 in HT. rewrite H53 in HK. rewrite H51 in Hn.
  assert (0 <= K) as HK0 by (unfold K; apply Z.div_pos; lia).
  symmetry. apply Z.div_unique_pos with (m1 - K * T).
  2: lia.
  split.
  - (* K * T <= m1 *)
    assert (K * T <= M * (n * X) / Y) as LB; [|lia].
    apply Z.div_le_lower_bound; [lia|].
    replace (Y * (K * T)) with (K * (T * Y)) by ring. rewrite HT.
    nia.
  - (* m1 < (K + 1) * T *)
    assert (M * (n * X) / Y < (K + 1) * T - 1) as UB; [|lia].
    apply Z.div_lt_upper_bound; [lia|].
    replace (Y * ((K + 1) * T - 1)) with ((K + 1) * (T * Y) - Y) by ring.
    rewrite HT. nia.
Qed.

(** [int(0.1 * n)] is [n // 10] for every size below 2^51. *)
Lemma num_test_exact (n : Z) : 0 <= n < 2 ^ 51 -> num_test n = Ok (n / 10).
Proof.
  intros Hn. destruct n as [|p|p]; [vm_compute; reflexivity| |lia].
  pose proof (size_bounds p) as [SL SU].
  assert (Z.pos (Pos.size p) <= 51) as Hs.
  { destruct (Z.le_gt_cases (Z.pos (Pos.size p)) 51) as [H|H]; [exact H|].
    assert (2 ^ 51 <= 2 ^ (Z.pos (Pos.size p) - 1))
      by (apply Z.pow_le_mono_r; lia). lia. }
  destruct (binary_normalize_exact p) as [mz [N [Vz Dz]]].
  { assert (2 ^ 51 < 2 ^ 53) by reflexivity. lia. }
  set (s := 53 - Z.pos (Pos.size p)) in *.
  replace (Z.pos (Pos.size p) - 53) with (- s) in N by (unfold s; lia).
  assert (Prim2SF (float_of_Z (Z.pos p)) = S754_finite false mz (- s)) as F.
  { unfold float_of_Z. rewrite N. apply Prim2SF_SF2Prim.
    apply finite_53_valid; [exact Dz|unfold s; lia]. }
  unfold num_test, float_of_int.
  rewrite (finite_not_infinity _ _ _ _ F). cbn [bind].
  unfold int_of_float.
  rewrite mul_spec, F, test_percent_spec.
  unfold SF64mul, SFmul. cbn [xorb].
  pose proof (size_bounds mz) as [ML MU]. rewrite Dz in ML, MU.
  pose proof (size_bounds (tenth_mantissa * mz)) as [PL PU].
  set (d := Z.pos (Pos.size (tenth_mantissa * mz))) in *.
  assert (105 <= d <= 106) as Hd.
  { rewrite Pos2Z.inj_mul in PL, PU.
    assert (2 ^ 52 <= Z.pos tenth_mantissa < 2 ^ 53) as [TL TU]
      by (split; [discriminate|reflexivity]).
    assert (2 ^ 104 <= Z.pos tenth_mantissa * Z.pos mz).
    { change (2 ^ 104) with (2 ^ 52 * 2 ^ (53 - 1)).
      apply Z.mul_le_mono_nonneg; try lia. }
    assert (Z.pos tenth_mantissa * Z.pos mz < 2 ^ 106).
    { change (2 ^ 106) with (2 ^ 53 * 2 ^ 53).
      apply Z.mul_lt_mono_nonneg; lia. }
    split.
    - destruct (Z.le_gt_cases 105 d) as [H'|H']; [exact H'|].
      assert (2 ^ d <= 2 ^ 104) by (apply Z.pow_le_mono_r; lia). lia.
    - destruct (Z.le_gt_cases d 106) as [H'|H']; [exact H'|].
      assert (2 ^ 106 <= 2 ^ (d - 1)) by (apply Z.pow_le_mono_r; lia). lia. }
  destruct (binary_round_aux_near false (tenth_mantissa * mz) (-56 + - s) d)
    as [m2 [m1 [n2 [R [Near [Hn2 Em1]]]]]];
    [reflexivity | lia | unfold s; lia | unfold s; lia |].
  rewrite R. cbn [cond_Zopp]. f_equal.
  assert (tenth_floor_inst :
            m1 / 2 ^ (56 + s - (d - 53)) = Z.pos p / 10).
  { apply tenth_floor; [lia | unfold s; lia | lia |].
    rewrite <- Vz. rewrite <- Pos2Z.inj_mul. exact Near. }
  rewrite <- tenth_floor_inst.
  set (T := 56 + s - (d - 53)) in *.
  assert (5 <= T) as HT by (unfold T, s; lia).
  replace (-56 + - s + (d - 53) + n2) with (- (T - n2)) by (unfold T; lia).
  rewrite Z.shiftl_div_pow2 by lia.
  rewrite Z.opp_involutive, Em1.
  replace (2 ^ T) with (2 ^ (n2 + (T - n2))) by (f_equal; lia).
  rewrite Z.pow_add_r by lia.
  rewrite Z.mul_comm.
  rewrite Z.div_mul_cancel_l; [reflexivity | | ]; apply Z.pow_nonzero; lia.
Qed.


(** Claim C9 as it is worded fails where the decoded value is not a
    float32: for [xy_030_001_b.jpg] the returned y is not
    [(1 - 50.0) / 50.0]. *)
Lemma getitem_y_is_rounded :
  exists t target,
    snd (@getitem demo_vision 2 0.25%float tt demo_dataset) = Ok (t, target) /\
    py_int (slice 7 10 (basename "dataset/xy_030_001_b.jpg")) = Ok 1 /\
    nth_error target 1 <> Some ((float_of_Z 1 - 50) / 50)%float.
Proof.
  destruct (@getitem_rgb_returns demo_vision resize_nearest_laws demo_dataset 2
              0.25%float tt "dataset/xy_030_001_b.jpg" red_blue red_blue
              red_blue (-0.4)%float (-0.98)%float
              ltac:(vm_compute; reflexivity) ltac:(vm_compute; reflexivity)
              ltac:(vm_compute; reflexivity) ltac:(vm_compute; reflexivity)
              ltac:(vm_compute; reflexivity) ltac:(reflexivity)
              ltac:(vm_compute; reflexivity))
    as [t [target [E _]]].
  exists t, target. split; [exact E|]. split; [vm_compute; reflexivity|].
  destruct (@getitem_target_y demo_vision demo_dataset 2 0.25%float tt
              t target E) as [path [d [Hp [Hd [_ [_ Hy]]]]]].
  assert (path = "dataset/xy_030_001_b.jpg") as ->.
  { assert (py_index (image_paths demo_dataset) 2
            = Ok "dataset/xy_030_001_b.jpg") as P by (vm_compute; reflexivity).
    congruence. }
  assert (d = 1) as ->.
  { assert (py_int (slice 7 10 (basename "dataset/xy_030_001_b.jpg")) = Ok 1)
      as P by (vm_compute; reflexivity).
    congruence. }
  rewrite Hy. intros C.
  apply (f_equal (fun o : option float =>
                    match o with Some v => v | None => 0%float end)) in C.
  cbv beta iota in C.
  assert ((f32 ((float_of_Z 1 - 50) / 50) =? (float_of_Z 1 - 50) / 50)%float
          = false) as N by (vm_compute; reflexivity).
  rewrite C in N.
  assert (((float_of_Z 1 - 50) / 50 =? (float_of_Z 1 - 50) / 50)%float = true)
    as Y by (vm_compute; reflexivity).
  congruence.
Qed.

(** Claim C3.  For a dataset of [n] samples and any permutation of its
    indices, the split returns a test subset of [n // 10] samples and a
    train subset of the others: together they are the permutation itself,
    so every index is in exactly one of them.  The size is taken below
    2^51, which no list of paths reaches: [int(0.1 * n)] is a float
    product, and the proof shows that it is [n // 10] on all these
    sizes. *)
Theorem split_sizes_and_partition (n : Z) (indices : list Z) :
  0 <= n < 2 ^ 51 ->
  Permutation indices (range n) ->
  exists train test,
    split n indices = Ok (train, test) /\
    Z.of_nat (List.length test) = n / 10 /\
    Z.of_nat (List.length train) = n - n / 10 /\
    (train ++ test)%list = indices /\
    Permutation (train ++ test)%list (range n) /\
    NoDup (train ++ test)%list.
Proof.
  intros Hn P.
  apply split_partition; [now apply num_test_exact | | exact P].
  pose proof (Z.div_pos n 10) as D0.
  pose proof (Z.div_le_upper_bound n 10 n) as D1. lia.
Qed.

Lemma split_sizes_and_partition_witness :
  exists train test,
    split 25 (rev (range 25)) = Ok (train, test) /\
    Z.of_nat (List.length test) = 25 / 10 /\
    Z.of_nat (List.length train) = 25 - 25 / 10 /\
    (train ++ test)%list = rev (range 25) /\
    Permutation (train ++ test)%list (range 25) /\
    NoDup (train ++ test)%list.
Proof.
  apply (split_sizes_and_partition 25 (rev (range 25))).
  - split; [discriminate | reflexivity].
  - apply Permutation_sym, Permutation_rev.
Defined.

(** A bound on the size is needed: far beyond it the product [0.1 * n]
    rounds up to the next integer. *)
Lemma num_test_rounds_up_far_out :
  num_test 6755399441055749 = Ok 675539944105575 /\
  6755399441055749 / 10 = 675539944105574.
Proof. split; vm_compute; reflexivity. Qed.

(** * The decoders on every filename *)

Lemma digit_val_range (c : ascii) : is_digit c = true -> 0 <= digit_val c <= 9.
Proof.
  unfold is_digit, digit_val. intros H. apply andb_prop in H as [H1 H2].
  apply Nat.leb_le in H1, H2. lia.
Qed.

Lemma parse_digits_bound (s : string) :
  forall acc b z,
    0 <= acc -> parse_digits s acc b = Some z ->
    0 <= z < (acc + 1) * 10 ^ Z.of_nat (String.length s).
Proof.
  induction s as [|c r IH]; intros acc b z Ha H.
  - cbn in H |- *. destruct b; [|discriminate H]. injection H as <-. lia.
  - cbn [parse_digits] in H. cbn [String.length].
    rewrite Nat2Z.inj_succ, Z.pow_succ_r by lia.
    assert (0 < 10 ^ Z.of_nat (String.length r)) as P
      by (apply Z.pow_pos_nonneg; lia).
    destruct (is_digit c) eqn:D.
    + pose proof (digit_val_range c D) as V.
      apply IH in H; [|lia]. nia.
    + destruct (Ascii.eqb c "_" && b); [|discriminate H].
      apply IH in H; [|lia]. nia.
Qed.

Lemma lstrip_length (s : string) :
  (String.length (lstrip s) <= String.length s)%nat.
Proof.
  induction s as [|c r IH]; cbn; [lia|]. destruct (is_space c); cbn; lia.
Qed.

Lemma rstrip_length (s : string) :
  (String.length (rstrip s) <= String.length s)%nat.
Proof.
  induction s as [|c r IH]; cbn; [lia|].
  destruct (rstrip r) as [|c' r']; [destruct (is_space c)|]; cbn in *; lia.
Qed.

Lemma strip_length (s : string) :
  (String.length (strip s) <= String.length s)%nat.
Proof.
  unfold strip. pose proof (rstrip_length (lstrip s)).
  pose proof (lstrip_length s). lia.
Qed.

Lemma substring_length_le (n m : nat) (s : string) :
  (String.length (substring n m s) <= m)%nat.
Proof.
  revert n m. induction s as [|c r IH]; intros n m.
  - destruct n, m; cbn; lia.
  - destruct n as [|n]; [destruct m as [|m]|]; cbn.
    + lia.
    + specialize (IH 0%nat m). lia.
    + apply IH.
Qed.

Lemma substring_short (n m : nat) (s : string) :
  (String.length s <= n)%nat -> substring n m s = "".
Proof.
  revert n m. induction s as [|c r IH]; intros n m H.
  - destruct n, m; reflexivity.
  - destruct n as [|n]; cbn in H; [lia|]. cbn. apply IH. lia.
Qed.

(** [int] of at most three characters is a [ValueError] or an integer of
    at most three digits, two when it carries a sign. *)
Lemma py_int_three (s : string) :
  (String.length s <= 3)%nat ->
  py_int s = Raise ValueError \/ exists d, py_int s = Ok d /\ -99 <= d <= 999.
Proof.
  intros L. pose proof (strip_length s) as L'. unfold py_int.
  assert (forall t z, (String.length t <= 3)%nat ->
            parse_digits t 0 false = Some z -> 0 <= z <= 999) as B3.
  { intros t z Lt H. apply parse_digits_bound in H; [|lia].
    assert (10 ^ Z.of_nat (String.length t) <= 10 ^ 3)
      by (apply Z.pow_le_mono_r; lia). lia. }
  assert (forall t z, (String.length t <= 2)%nat ->
            parse_digits t 0 false = Some z -> 0 <= z <= 99) as B2.
  { intros t z Lt H. apply parse_digits_bound in H; [|lia].
    assert (10 ^ Z.of_nat (String.length t) <= 10 ^ 2)
      by (apply Z.pow_le_mono_r; lia). lia. }
  assert (forall t, (String.length t <= 3)%nat ->
            match parse_digits t 0 false with
            | Some z => Ok z
            | None => Raise ValueError
            end = Raise ValueError \/
            exists d, match parse_digits t 0 false with
                      | Some z => Ok z
                      | None => Raise ValueError
                      end = Ok d /\ -99 <= d <= 999) as Plain.
  { intros t Lt. destruct (parse_digits t 0 false) as [z|] eqn:E; [|now left].
    right. exists z. split; [reflexivity|]. specialize (B3 t z Lt E). lia. }
  destruct (strip s) as [|c r] eqn:Es; [now left|].
  cbn [String.length] in L'.
  destruct (Ascii.eqb_spec c "+") as [->|Np].
  { destruct (parse_digits r 0 false) as [z|] eqn:E; [|now left].
    right. exists z. split; [reflexivity|].
    specialize (B2 r z ltac:(lia) E). lia. }
  destruct (Ascii.eqb_spec c "-") as [->|Nm].
  { destruct (parse_digits r 0 false) as [z|] eqn:E; [|now left].
    right. exists (- z). split; [reflexivity|].
    specialize (B2 r z ltac:(lia) E). lia. }
  specialize (Plain (String c r) ltac:(cbn [String.length]; lia)).
  destruct c as [[] [] [] [] [] [] [] []]; try exact Plain; congruence.
Qed.

Lemma decode_reach_table :
  forallb decode_in_reach (map (fun k => k - 99) (range 1099)) = true.
Proof. vm_compute. reflexivity. Qed.

Lemma decode_reach (d : Z) :
  -99 <= d <= 999 ->
  decode d = Ok ((float_of_Z d - 50) / 50)%float /\
  between (-2.98) 18.98 ((float_of_Z d - 50) / 50)%float = true.
Proof.
  intros Hd. pose proof decode_reach_table as T.
  rewrite forallb_forall in T. specialize (T d).
  assert (In d (map (fun k => k - 99) (range 1099))) as I.
  { apply in_map_iff. exists (d + 99). split; [lia|]. apply in_range. lia. }
  specialize (T I). unfold decode_in_reach in T.
  unfold decode, float_of_int in *.
  destruct (is_infinity (float_of_Z d)); [discriminate T|].
  cbn [bind] in *. auto.
Qed.

Lemma field_outcome (lo : nat) (path : string) :
  (py_int (slice lo (lo + 3) path) = Raise ValueError /\
   (d <- py_int (slice lo (lo + 3) path) ;; decode d) = Raise ValueError) \/
  (exists d,
     py_int (slice lo (lo + 3) path) = Ok d /\ -99 <= d <= 999 /\
     (d <- py_int (slice lo (lo + 3) path) ;; decode d)
       = Ok ((float_of_Z d - 50) / 50)%float /\
     between (-2.98) 18.98 ((float_of_Z d - 50) / 50)%float = true).
Proof.
  destruct (py_int_three (slice lo (lo + 3) path)) as [E | [d [E R]]].
  - unfold slice. replace (lo + 3 - lo)%nat with 3%nat by lia.
    apply substring_length_le.
  - left. now rewrite E.
  - right. exists d. rewrite E. cbn [bind].
    destruct (decode_reach d R) as [D B]. auto.
Qed.

(** Whatever the filename, each decoder either raises a [ValueError],
    when its field is not an integer literal, or returns the decoded
    integer of the field, which lies between -99 and 999, as a number
    between -2.98 and 18.98; it raises nothing else. *)
Theorem decoders_outcome (path : string) :
  ((py_int (slice 3 6 path) = Raise ValueError /\
    get_x path = Raise ValueError) \/
   (exists d,
      py_int (slice 3 6 path) = Ok d /\ -99 <= d <= 999 /\
      get_x path = Ok ((float_of_Z d - 50) / 50)%float /\
      between (-2.98) 18.98 ((float_of_Z d - 50) / 50)%float = true)) /\
  ((py_int (slice 7 10 path) = Raise ValueError /\
    get_y path = Raise ValueError) \/
   (exists d,
      py_int (slice 7 10 path) = Ok d /\ -99 <= d <= 999 /\
      get_y path = Ok ((float_of_Z d - 50) / 50)%float /\
      between (-2.98) 18.98 ((float_of_Z d - 50) / 50)%float = true)).
Proof. split; [exact (field_outcome 3 path) | exact (field_outcome 7 path)]. Qed.

(** A name too short to hold a field raises. *)
Theorem short_name_raises (path : string) :
  ((String.length path <= 3)%nat -> get_x path = Raise ValueError) /\
  ((String.length path <= 7)%nat -> get_y path = Raise ValueError).
Proof.
  split; intros L; unfold get_x, get_y, slice;
    rewrite substring_short by lia; reflexivity.
Qed.

Lemma short_name_raises_witness :
  get_x "xy_" = Raise ValueError /\ get_y "xy_050_" = Raise ValueError.
Proof.
  split.
  - apply (proj1 (short_name_raises "xy_")). cbn. lia.
  - apply (proj2 (short_name_raises "xy_050_")). cbn. lia.
Defined.

Lemma decode_steps_table :
  forallb decode_steps_up (map (fun k => k - 99) (range 1098)) = true.
Proof. vm_compute. reflexivity. Qed.

Lemma decode_step (d : Z) :
  -99 <= d < 999 ->
  ((float_of_Z d - 50) / 50 <? (float_of_Z (d + 1) - 50) / 50)%float = true.
Proof.
  intros Hd. pose proof decode_steps_table as T.
  rewrite forallb_forall in T. specialize (T d).
  assert (In d (map (fun k => k - 99) (range 1098))) as I.
  { apply in_map_iff. exists (d + 99). split; [lia|]. apply in_range. lia. }
  specialize (T I). unfold decode_steps_up in T.
  rewrite (proj1 (decode_reach d ltac:(lia))) in T.
  rewrite (proj1 (decode_reach (d + 1) ltac:(lia))) in T. exact T.
Qed.

Lemma decode_increasing (a b : Z) :
  -99 <= a -> a < b -> b <= 999 ->
  ((float_of_Z a - 50) / 50 <? (float_of_Z b - 50) / 50)%float = true.
Proof.
  intros Ha Hab Hb.
  replace b with (a + 1 + Z.of_nat (Z.to_nat (b - a - 1))) in * by lia.
  induction (Z.to_nat (b - a - 1)) as [|k IH].
  - rewrite Z.add_0_r. apply decode_step. lia.
  - apply ltb_trans with ((float_of_Z (a + 1 + Z.of_nat k) - 50) / 50)%float.
    + apply IH; lia.
    + replace (a + 1 + Z.of_nat (S k)) with (a + 1 + Z.of_nat k + 1) by lia.
      apply decode_step. lia.
Qed.

(** Decoding keeps the order of the fields: of two filenames, the one
    whose field writes the larger integer gets the strictly larger
    target, so distinct labels stay distinct. *)
Theorem decoding_keeps_order (p q : string) (a b : Z) :
  a < b ->
  (py_int (slice 3 6 p) = Ok a -> py_int (slice 3 6 q) = Ok b ->
   exists x x',
     get_x p = Ok x /\ get_x q = Ok x' /\ (x <? x')%float = true) /\
  (py_int (slice 7 10 p) = Ok a -> py_int (slice 7 10 q) = Ok b ->
   exists y y',
     get_y p = Ok y /\ get_y q = Ok y' /\ (y <? y')%float = true).
Proof.
  intros Hab.
  assert (forall lo,
            py_int (slice lo (lo + 3) p) = Ok a ->
            py_int (slice lo (lo + 3) q) = Ok b ->
            exists x x',
              (d <- py_int (slice lo (lo + 3) p) ;; decode d) = Ok x /\
              (d <- py_int (slice lo (lo + 3) q) ;; decode d) = Ok x' /\
              (x <? x')%float = true) as G.
  { intros lo Ea Eb.
    destruct (field_outcome lo p) as [[E _] | [a' [Ea' [Ra [Xa _]]]]];
      [congruence|].
    destruct (field_outcome lo q) as [[E _] | [b' [Eb' [Rb [Xb _]]]]];
      [congruence|].
    assert (a' = a) as -> by congruence. assert (b' = b) as -> by congruence.
    eexists. eexists. split; [exact Xa|]. split; [exact Xb|].
    apply decode_increasing; lia. }
  split; [exact (G 3%nat) | exact (G 7%nat)].
Qed.

Lemma decoding_keeps_order_witness :
  (exists x x',
     get_x "xy_049_050_a.jpg" = Ok x /\ get_x "xy_051_060_b.jpg" = Ok x' /\
     (x <? x')%float = true) /\
  (exists y y',
     get_y "xy_049_050_a.jpg" = Ok y /\ get_y "xy_051_060_b.jpg" = Ok y' /\
     (y <? y')%float = true).
Proof.
  split.
  - apply (proj1 (decoding_keeps_order "xy_049_050_a.jpg" "xy_051_060_b.jpg"
                    49 51 ltac:(lia))); vm_compute; reflexivity.
  - apply (proj2 (decoding_keeps_order "xy_049_050_a.jpg" "xy_051_060_b.jpg"
                    50 60 ltac:(lia))); vm_compute; reflexivity.
Defined.

(** * Every outcome of an access *)

(** An access returns exactly when the index is in the list, the file
    opens, both fields of its name parse, the file decodes to a picture of
    three bands and the jitter takes that picture, mirrored or not;
    otherwise it raises. *)
Theorem getitem_returns_iff `{Vision} (laws : vision_laws) (self : XYDataset)
  (idx : Z) (draw : float) (jit : jitter_draw) :
  (exists t target, snd (getitem idx draw jit self) = Ok (t, target)) <->
  (exists path file img out x y,
     py_index (image_paths self) idx = Ok path /\
     image_open path = Ok file /\
     get_x (basename path) = Ok x /\ get_y (basename path) = Ok y /\
     image_load file = Ok img /\ bands img = 3%nat /\
     jitter (color_jitter self) jit (fst (flip_branch draw (img, x)))
       = Ok out).
Proof.
  split.
  - intros [t [target E]]. rewrite getitem_run in E.
    destruct (py_index (image_paths self) idx) as [path|e]; [|discriminate E].
    cbn [bind] in E.
    destruct (image_open path) as [file|e] eqn:Hi; [|discriminate E].
    cbn [bind] in E.
    destruct (get_x (basename path)) as [x|e] eqn:Hx; [|discriminate E].
    cbn [bind] in E.
    destruct (get_y (basename path)) as [y|e] eqn:Hy; [|discriminate E].
    cbn [bind] in E.
    destruct (image_load file) as [img|e] eqn:Hl; [|discriminate E].
    cbn [bind] in E.
    destruct (pipeline _ _ _) as [t'|e] eqn:P; [|discriminate E].
    destruct (pipeline_returns laws _ _ _ _ P) as [B [_ [out J]]].
    rewrite flip_branch_bands in B.
    exists path, file, img, out, x, y. repeat split; assumption.
  - intros [path [file [img [out [x [y [Hp [Hi [Hx [Hy [Hl [Hb Hj]]]]]]]]]]]].
    destruct (getitem_rgb_returns laws self idx draw jit path file img out
                x y Hp Hi Hx Hy Hl Hb Hj) as [t [target [E _]]].
    now exists t, target.
Qed.

Lemma getitem_returns_iff_witness :
  (exists t target,
     snd (@getitem demo_vision 2 0.75%float tt demo_dataset) = Ok (t, target)) <->
  (exists path file img out x y,
     py_index (image_paths demo_dataset) 2 = Ok path /\
     @image_open demo_vision path = Ok file /\
     get_x (basename path) = Ok x /\ get_y (basename path) = Ok y /\
     @image_load demo_vision file = Ok img /\ bands img = 3%nat /\
     @jitter demo_vision (color_jitter demo_dataset) tt
       (fst (flip_branch 0.75 (img, x))) = Ok out).
Proof.
  exact (@getitem_returns_iff demo_vision resize_nearest_laws demo_dataset 2
           0.75%float tt).
Defined.

(** When the file decodes to a picture that does not have three bands the
    access raises and the dataset is as it was: the exception is the one
    of the jitter when the jitter refuses the picture, and the
    [RuntimeError] of [normalize] when the jitter takes it. *)
Theorem getitem_other_mode_raises `{Vision} (laws : vision_laws)
  (self : XYDataset) (idx : Z) (draw : float) (jit : jitter_draw)
  (path : string) (file : picture) (img : image) (x y : float) :
  py_index (image_paths self) idx = Ok path ->
  image_open path = Ok file ->
  get_x (basename path) = Ok x -> get_y (basename path) = Ok y ->
  image_load file = Ok img -> bands img <> 3%nat ->
  getitem idx draw jit self =
  (self,
   match jitter (color_jitter self) jit (fst (flip_branch draw (img, x))) with
   | Ok _ => Raise RuntimeError
   | Raise e => Raise e
   end).
Proof.
  intros Hp Hi Hx Hy Hl Hb.
  rewrite (surjective_pairing (getitem idx draw jit self)).
  rewrite getitem_self, getitem_run, Hp. cbn [bind]. rewrite Hi. cbn [bind].
  rewrite Hx. cbn [bind]. rewrite Hy. cbn [bind]. rewrite Hl. cbn [bind].
  destruct (jitter _ _ _) as [out|e] eqn:J.
  - rewrite (pipeline_not_rgb laws _ _ _ out); [reflexivity| |exact J].
    now rewrite flip_branch_bands.
  - now rewrite (pipeline_jitter_raises _ _ _ e J).
Qed.

Lemma getitem_other_mode_raises_witness :
  @getitem demo_vision 1 0.25%float tt demo_dataset
  = (demo_dataset, Raise RuntimeError).
Proof.
  apply (@getitem_other_mode_raises demo_vision resize_nearest_laws
           demo_dataset 1 0.25%float tt "dataset/xy_050_001_grey.jpg"
           grey_ramp grey_ramp 0%float (-0.98)%float);
    try (vm_compute; reflexivity).
  discriminate.
Defined.

(** * Indexing *)

Lemma py_index_outside {A : Type} (l : list A) (i : Z) :
  i < - Z.of_nat (List.length l) \/ Z.of_nat (List.length l) <= i ->
  py_index l i = Raise IndexError.
Proof.
  intros H. unfold py_index.
  destruct (i <? 0) eqn:N.
  - apply Z.ltb_lt in N.
    destruct ((0 <=? i + Z.of_nat (List.length l)) &&
              (i + Z.of_nat (List.length l) <? Z.of_nat (List.length l)))
      eqn:C; [|reflexivity].
    apply andb_prop in C as [C1 C2]. lia.
  - apply Z.ltb_ge in N.
    destruct ((0 <=? i) && (i <? Z.of_nat (List.length l))) eqn:C;
      [|reflexivity].
    apply andb_prop in C as [C1 C2]. lia.
Qed.

Lemma py_index_negative {A : Type} (l : list A) (i : Z) :
  - Z.of_nat (List.length l) <= i < 0 ->
  py_index l i = py_index l (i + Z.of_nat (List.length l)).
Proof.
  intros H. unfold py_index.
  assert ((i <? 0) = true) as -> by lia.
  assert ((i + Z.of_nat (List.length l) <? 0) = false) as -> by lia.
  reflexivity.
Qed.

Lemma py_index_inside {A : Type} (l : list A) (i : Z) :
  0 <= i < Z.of_nat (List.length l) ->
  exists a, py_index l i = Ok a /\ nth_error l (Z.to_nat i) = Some a.
Proof.
  intros H. unfold py_index.
  assert ((i <? 0) = false) as -> by lia.
  assert (((0 <=? i) && (i <? Z.of_nat (List.length l))) = true) as ->
    by (apply andb_true_intro; split; lia).
  destruct (nth_error l (Z.to_nat i)) as [a|] eqn:E.
  - now exists a.
  - apply nth_error_None in E. lia.
Qed.

(** An index outside [-len, len) is an [IndexError] that leaves the dataset
    as it was; a negative index inside reads the same sample as the index
    counted from the start. *)
Theorem getitem_index_bounds `{Vision} (self : XYDataset) (idx : Z)
  (draw : float) (jit : jitter_draw) (n : Z) :
  snd (len self) = Ok n ->
  (idx < - n \/ n <= idx ->
   getitem idx draw jit self = (self, Raise IndexError)) /\
  (- n <= idx < 0 ->
   getitem idx draw jit self = getitem (idx + n) draw jit self).
Proof.
  rewrite len_value. cbn [snd]. intros E. injection E as <-. split.
  - intros Hout.
    rewrite (surjective_pairing (getitem idx draw jit self)).
    rewrite getitem_self, getitem_run, py_index_outside by exact Hout.
    reflexivity.
  - intros Hneg.
    rewrite (surjective_pairing (getitem idx draw jit self)).
    rewrite (surjective_pairing (getitem (idx + _) draw jit self)).
    rewrite !getitem_self, !getitem_run, py_index_negative by exact Hneg.
    reflexivity.
Qed.

Lemma getitem_index_bounds_witness :
  (@getitem demo_vision 3 0.25%float tt demo_dataset
   = (demo_dataset, Raise IndexError)) /\
  (@getitem demo_vision (-1) 0.25%float tt demo_dataset
   = @getitem demo_vision (-1 + 3) 0.25%float tt demo_dataset).
Proof.
  pose proof (@getitem_index_bounds demo_vision demo_dataset) as G.
  split.
  - apply (proj1 (G 3 0.25%float tt 3 eq_refl)). lia.
  - apply (proj2 (G (-1) 0.25%float tt 3 eq_refl)). lia.
Defined.

(** * The x target *)

(** The first element of a returned target is the decoded x, negated
    exactly when the draw exceeds 0.5, as a float32. *)
Theorem getitem_x_target `{Vision} (self : XYDataset) (idx : Z)
  (draw : float) (jit : jitter_draw) (t : tensor) (target : list float) :
  snd (getitem idx draw jit self) = Ok (t, target) ->
  exists path x,
    py_index (image_paths self) idx = Ok path /\
    get_x (basename path) = Ok x /\
    nth_error target 0 =
      Some (f32 (if (0.5 <? draw)%float then (- x)%float else x)) /\
    ((draw <=? 0.5)%float = true -> nth_error target 0 = Some (f32 x)).
Proof.
  rewrite getitem_run. intros E.
  destruct (py_index (image_paths self) idx) as [path|e] eqn:Hp;
    [|discriminate E].
  cbn [bind] in E.
  destruct (image_open path) as [file|e]; [|discriminate E]. cbn [bind] in E.
  destruct (get_x (basename path)) as [x|e] eqn:Hx; [|discriminate E].
  cbn [bind] in E.
  destruct (get_y (basename path)) as [y|e]; [|discriminate E].
  cbn [bind] in E.
  destruct (image_load file) as [img|e]; [|discriminate E]. cbn [bind] in E.
  destruct (pipeline _ _ _) as [t'|e]; [|discriminate E]. cbn [bind] in E.
  assert (target = [f32 (snd (flip_branch draw (img, x))); f32 y]) as ->.
  { clear -E.
    exact (f_equal (fun r : result (tensor * list float) =>
                      match r with Ok (_, tg) => tg | Raise _ => [] end)
                   (eq_sym E)). }
  exists path, x. split; [reflexivity|]. split; [exact Hx|].
  unfold flip_branch. split.
  - destruct (0.5 <? draw)%float; reflexivity.
  - intros L. rewrite (leb_not_ltb _ _ L). reflexivity.
Qed.

Lemma getitem_x_target_witness :
  exists t target,
    snd (@getitem demo_vision 0 0.25%float tt demo_dataset) = Ok (t, target) /\
    exists path x,
      py_index (image_paths demo_dataset) 0 = Ok path /\
      get_x (basename path) = Ok x /\
      nth_error target 0 =
        Some (f32 (if (0.5 <? 0.25)%float then (- x)%float else x)) /\
      ((0.25 <=? 0.5)%float = true -> nth_error target 0 = Some (f32 x)).
Proof.
  destruct (@getitem_rgb_returns demo_vision resize_nearest_laws demo_dataset 0
              0.25%float tt "dataset/xy_100_050_a.jpg" red_blue red_blue
              red_blue 1%float 0%float
              ltac:(vm_compute; reflexivity) ltac:(vm_compute; reflexivity)
              ltac:(vm_compute; reflexivity) ltac:(vm_compute; reflexivity)
              ltac:(vm_compute; reflexivity) ltac:(reflexivity)
              ltac:(vm_compute; reflexivity))
    as [t [target [E _]]].
  exists t, target. split; [exact E|].
  exact (@getitem_x_target demo_vision demo_dataset 0 0.25%float tt t target E).
Defined.

(** * The order of the channels *)

Lemma to_tensor_bands (img : image) :
  to_tensor img = map (fun c => band_plane c img) (seq 0 (bands img)).
Proof. reflexivity. Qed.

Lemma pipeline_planes `{Vision} (laws : vision_laws)
  (cj : ColorJitter) (jit : jitter_draw) (img out : image) :
  bands img = 3%nat ->
  jitter cj jit img = Ok out ->
  pipeline cj jit img =
  Ok [normalize_plane 0.485 0.229
        (band_plane 2 (resize out (224%nat, 224%nat)));
      normalize_plane 0.456 0.224
        (band_plane 1 (resize out (224%nat, 224%nat)));
      normalize_plane 0.406 0.225
        (band_plane 0 (resize out (224%nat, 224%nat)))].
Proof.
  intros B J. unfold pipeline. rewrite J. cbn [bind].
  rewrite to_tensor_bands.
  rewrite (resize_bands laws), (jitter_bands laws _ _ _ _ J), B.
  reflexivity.
Qed.

(** On a picture of three bands that the jitter takes, the returned
    tensor lists the bands in reverse: blue, green, red, and the three
    means and deviations are applied in that order, the first pair to the
    blue band. *)
Theorem pipeline_channel_order `{Vision} (laws : vision_laws)
  (cj : ColorJitter) (jit : jitter_draw) (img out : image) :
  bands img = 3%nat ->
  jitter cj jit img = Ok out ->
  pipeline cj jit img =
  Ok [normalize_plane 0.485 0.229
        (band_plane 2 (resize out (224%nat, 224%nat)));
      normalize_plane 0.456 0.224
        (band_plane 1 (resize out (224%nat, 224%nat)));
      normalize_plane 0.406 0.225
        (band_plane 0 (resize out (224%nat, 224%nat)))].
Proof.
  intros B J. rewrite (pipeline_planes laws cj jit img out B J). reflexivity.
Qed.

Lemma pipeline_channel_order_witness :
  @pipeline demo_vision (color_jitter demo_dataset) tt red_blue =
  Ok [normalize_plane 0.485 0.229
        (band_plane 2 (resize_nearest red_blue (224%nat, 224%nat)));
      normalize_plane 0.456 0.224
        (band_plane 1 (resize_nearest red_blue (224%nat, 224%nat)));
      normalize_plane 0.406 0.225
        (band_plane 0 (resize_nearest red_blue (224%nat, 224%nat)))].
Proof.
  apply (@pipeline_channel_order demo_vision resize_nearest_laws
           (color_jitter demo_dataset) tt red_blue red_blue).
  - reflexivity.
  - reflexivity.
Defined.

(** * The paths of a dataset *)

(** For a directory name without a wildcard that is not empty and does
    not end with a slash, the stored paths are, in the order of the
    listing, [directory/name] for the entries whose name does not start
    with a dot and ends in [.jpg], and the name comes back as the
    basename of its path. *)
Theorem dataset_paths_exact `{Vision} (dir : string) (flips : bool) :
  plain_dir dir = true ->
  has_magic dir = false ->
  (forall name, In name (listdir dir) -> has_slash name = false) ->
  image_paths (XYDataset_init dir flips)
    = map (fun name => dir ++ "/" ++ name)
          (filter jpg_entry (listdir dir)) /\
  map basename (image_paths (XYDataset_init dir flips))
    = filter jpg_entry (listdir dir).
Proof.
  intros P M N.
  assert (image_paths (XYDataset_init dir flips)
          = map (fun name => dir ++ "/" ++ name)
                (filter jpg_entry (listdir dir))) as E.
  { unfold XYDataset_init. cbn [image_paths].
    rewrite (glob_jpg_plain dir M).
    rewrite dirname_join_plain by exact P.
    apply map_ext_in. intros name Hn. apply filter_In in Hn as [Hn _].
    apply path_join_plain; [exact P|now apply N]. }
  split; [exact E|].
  rewrite E, map_map. rewrite <- (map_id (filter _ _)) at 2.
  apply map_ext_in. intros name Hn. apply filter_In in Hn as [Hn _].
  apply basename_plain. now apply N.
Qed.

Lemma dataset_paths_exact_witness :
  image_paths (@XYDataset_init demo_vision "dataset" false)
    = map (fun name => "dataset" ++ "/" ++ name)
          (filter jpg_entry (@listdir demo_vision "dataset")) /\
  map basename (image_paths (@XYDataset_init demo_vision "dataset" false))
    = filter jpg_entry (@listdir demo_vision "dataset").
Proof.
  apply (@dataset_paths_exact demo_vision "dataset" false).
  - reflexivity.
  - reflexivity.
  - intros name [<- | [<- | [<- | [<- | [<- | []]]]]]; reflexivity.
Defined.

(** A name is kept exactly when it ends in [.jpg] and does not start
    with a dot; the test is case sensitive. *)
Theorem visible_jpg_iff (name : string) :
  is_visible_jpg name = true <->
  (exists stem, name = stem ++ ".jpg") /\ starts_with "." name = false.
Proof.
  unfold is_visible_jpg, is_hidden. rewrite andb_true_iff, negb_true_iff.
  rewrite (fnmatch_star_suffix ".jpg" eq_refl). tauto.
Qed.

(** * The shape of a run *)

Lemma run_epochs_app `{Trainer} (l1 l2 : list nat) (s : loop_state) :
  run_epochs (l1 ++ l2)%list s =
  match run_epochs l1 s with
  | (s1, None) => run_epochs l2 s1
  | (s1, Some e) => (s1, Some e)
  end.
Proof.
  revert s. induction l1 as [|a l1 IH]; intros s; cbn; [reflexivity|].
  destruct (epoch_body a s) as [s' [e|]]; [reflexivity|apply IH].
Qed.

Lemma train_succ `{Trainer} (n : nat) (w0 : world) (file0 : option params) :
  train (S n) w0 file0 =
  match train n w0 file0 with
  | (s1, None) => run_epochs [n] s1
  | (s1, Some e) => (s1, Some e)
  end.
Proof.
  unfold train. rewrite seq_S, run_epochs_app. reflexivity.
Qed.

Lemma history_of_complete_run `{Trainer} (n : nat) (w0 : world)
  (file0 : option params) :
  snd (train n w0 file0) = None ->
  List.length (history (fst (train n w0 file0))) = n /\
  map ep_epoch (history (fst (train n w0 file0))) = seq 0 n.
Proof.
  intros C.
  assert (List.length (history (fst (train n w0 file0))) = n) as L.
  { unfold train in *. rewrite (run_epochs_complete n 0 _ C). reflexivity. }
  split; [exact L|].
  pose proof (train_inv file0 n w0) as I.
  apply nth_error_ext. intros k.
  rewrite nth_error_map.
  destruct (nth_error (history (fst (train n w0 file0))) k) as [r|] eqn:E.
  - cbn. rewrite (inv_epoch _ _ I k r E).
    assert (k < n)%nat as Hk
      by (rewrite <- L; apply nth_error_Some; congruence).
    symmetry. rewrite nth_error_seq.
    destruct (Nat.ltb_spec k n); [reflexivity|lia].
  - cbn. apply nth_error_None in E. rewrite L in E.
    symmetry. apply nth_error_None. now rewrite length_seq.
Qed.

(** A run that no exception stops prints one line per epoch, numbered
    from 0 in order. *)
Theorem complete_run_history `{Trainer} (n : nat) (w0 : world)
  (file0 : option params) :
  snd (train n w0 file0) = None ->
  List.length (history (fst (train n w0 file0))) = n /\
  map ep_epoch (history (fst (train n w0 file0))) = seq 0 n.
Proof.
  intros C. split.
  - exact (proj1 (history_of_complete_run n w0 file0 C)).
  - exact (proj2 (history_of_complete_run n w0 file0 C)).
Qed.

Lemma complete_run_history_witness :
  List.length
    (history (fst (@train scripted 3 (0%nat, [5; 3; 4]%float) None))) = 3%nat /\
  map ep_epoch
    (history (fst (@train scripted 3 (0%nat, [5; 3; 4]%float) None)))
  = seq 0 3.
Proof.
  apply (@complete_run_history scripted 3 (0%nat, [5; 3; 4]%float) None).
  reflexivity.
Defined.

(** An epoch that raises leaves the loop variables as they were and the
    model as the raising pass left it. *)
Lemma epoch_body_raises `{Trainer} (epoch : nat) (s s' : loop_state)
  (e : exn) :
  epoch_body epoch s = (s', Some e) ->
  best_loss s' = best_loss s /\ checkpoint s' = checkpoint s /\
  history s' = history s /\
  (train_pass (model s) = (model s', Raise e) \/
   exists w1 train_loss,
     train_pass (model s) = (w1, Ok train_loss) /\
     test_pass w1 = (model s', Raise e)).
Proof.
  unfold epoch_body. intros E.
  destruct (train_pass (model s)) as [w1 [train_loss|e1]].
  - destruct (test_pass w1) as [w2 [l|e2]] eqn:Te.
    + destruct (l <? best_loss s)%float; discriminate E.
    + injection E as <- <-. repeat split. right.
      exists w1, train_loss. split; [reflexivity|exact Te].
  - injection E as <- <-. repeat split. now left.
Qed.

(** A run that one of the two passes stops in epoch [k] has printed the
    [k] lines of the epochs before, and its best loss and its file are
    those of the complete run of these [k] epochs: no record, no file
    content and no best loss comes from the epoch that raised.  The
    model is not that of the shorter run: it is what the raising pass
    left, the training pass or, after a training pass that returned, the
    test pass. *)
Theorem stopped_run_is_shorter_run `{Trainer} (n : nat) (w0 : world)
  (file0 : option params) (s : loop_state) (e : exn) :
  train n w0 file0 = (s, Some e) ->
  exists k sk,
    (k < n)%nat /\ train k w0 file0 = (sk, None) /\
    List.length (history s) = k /\
    history s = history sk /\
    best_loss s = best_loss sk /\
    checkpoint s = checkpoint sk /\
    (train_pass (model sk) = (model s, Raise e) \/
     exists w1 train_loss,
       train_pass (model sk) = (w1, Ok train_loss) /\
       test_pass w1 = (model s, Raise e)).
Proof.
  revert s e. induction n as [|n IH]; intros s e E; [discriminate E|].
  rewrite train_succ in E.
  pose proof (history_of_complete_run n w0 file0) as C.
  destruct (train n w0 file0) as [s1 [e1|]] eqn:T.
  - injection E as <- <-.
    destruct (IH s1 e1 eq_refl) as [k [sk [Hk R]]].
    exists k, sk. split; [lia|exact R].
  - cbn in E. destruct (epoch_body n s1) as [s' [e'|]] eqn:B;
      [|discriminate E].
    injection E as <- <-.
    destruct (epoch_body_raises _ _ _ _ B) as [Eb [Ec [Eh P]]].
    exists n, s1. split; [lia|]. split; [exact T|].
    split; [rewrite Eh; exact (proj1 (C eq_refl))|].
    repeat split; assumption.
Qed.

Lemma stopped_run_is_shorter_run_witness :
  exists k sk,
    (k < 3)%nat /\
    @train scripted k (0%nat, [5; 3]%float) None = (sk, None) /\
    List.length
      (history (fst (@train scripted 3 (0%nat, [5; 3]%float) None))) = k /\
    history (fst (@train scripted 3 (0%nat, [5; 3]%float) None))
      = history sk /\
    best_loss (fst (@train scripted 3 (0%nat, [5; 3]%float) None))
      = best_loss sk /\
    checkpoint (fst (@train scripted 3 (0%nat, [5; 3]%float) None))
      = checkpoint sk /\
    (@train_pass scripted (model sk)
       = (model (fst (@train scripted 3 (0%nat, [5; 3]%float) None)),
          Raise ZeroDivisionError) \/
     exists w1 train_loss,
       @train_pass scripted (model sk) = (w1, Ok train_loss) /\
       @test_pass scripted w1
         = (model (fst (@train scripted 3 (0%nat, [5; 3]%float) None)),
            Raise ZeroDivisionError)).
Proof.
  apply (@stopped_run_is_shorter_run scripted 3 (0%nat, [5; 3]%float) None
           _ ZeroDivisionError).
  reflexivity.
Defined.

(** Every write strictly improves on the write before it, and an epoch
    whose test loss is not a number never writes. *)
Theorem writes_strictly_improve `{Trainer} (n : nat) (w0 : world)
  (file0 : option params) (i j : nat) (ri rj : epoch_report) :
  nth_error (history (fst (train n w0 file0))) i = Some ri ->
  nth_error (history (fst (train n w0 file0))) j = Some rj ->
  (i < j)%nat -> ep_saved ri = true -> ep_saved rj = true ->
  (ep_test_loss rj <? ep_test_loss ri)%float = true.
Proof.
  intros Ei Ej Hij Si Sj. pose proof (train_inv file0 n w0) as I.
  apply (inv_saved _ _ I j rj Ej) in Sj as [_ B].
  apply (inv_saved _ _ I i ri Ei) in Si as [L _].
  apply (B i ri Hij Ei).
  apply is_nan_cmp. apply ltb_cmp in L. unfold cmp in L.
  exact (proj1 (SFcompare_not_nan _ _ _ L)).
Qed.

Lemma writes_strictly_improve_witness :
  (ep_test_loss (@mkReport scripted 1 0 3 true 2%nat)
   <? ep_test_loss (@mkReport scripted 0 0 5 true 1%nat))%float = true.
Proof.
  apply (@writes_strictly_improve scripted 3 (0%nat, [5; 3; 4]%float) None
           0 1 (@mkReport scripted 0 0 5 true 1%nat)
           (@mkReport scripted 1 0 3 true 2%nat));
    [reflexivity | reflexivity | lia | reflexivity | reflexivity].
Defined.

Theorem nan_loss_never_written `{Trainer} (n : nat) (w0 : world)
  (file0 : option params) (r : epoch_report) :
  In r (history (fst (train n w0 file0))) ->
  is_nan (ep_test_loss r) = true -> ep_saved r = false.
Proof.
  intros Hr N. pose proof (train_inv file0 n w0) as I.
  apply not_true_is_false. intros S.
  apply In_nth_error in Hr as [k Ek].
  apply (inv_saved _ _ I k r Ek) in S as [L _].
  apply ltb_cmp in L. unfold cmp in L.
  pose proof (proj1 (SFcompare_not_nan _ _ _ L)) as NN.
  apply is_nan_cmp in NN. congruence.
Qed.

Lemma nan_loss_never_written_witness :
  ep_saved (@mkReport scripted 1 0 nan false 2%nat) = false.
Proof.
  apply (@nan_loss_never_written scripted 2 (0%nat, [5%float; nan]) None
           (@mkReport scripted 1 0 nan false 2%nat)).
  - right. left. reflexivity.
  - reflexivity.
Defined.

(** * Small datasets *)

Lemma split_of_small (n : Z) (indices : list Z) :
  0 <= n < 10 -> Permutation indices (range n) ->
  split n indices = Ok (indices, []).
Proof.
  intros Hn P.
  assert (num_test n = Ok 0) as T.
  { rewrite num_test_exact.
    - now rewrite Z.div_small.
    - assert (10 < 2 ^ 51) by reflexivity. lia. }
  assert (Z.of_nat (List.length indices) = n) as L.
  { rewrite (Permutation_length P). apply range_length. lia. }
  rewrite (split_with n 0 indices T) by lia.
  rewrite Z.sub_0_r, <- L, Nat2Z.id.
  now rewrite firstn_all, skipn_all.
Qed.

(** A dataset of fewer than ten samples gets an empty test subset. *)
Theorem small_dataset_has_no_test_subset (n : Z) (indices : list Z) :
  0 <= n < 10 -> Permutation indices (range n) ->
  split n indices = Ok (indices, []).
Proof.
  exact (split_of_small n indices).
Qed.

Lemma small_dataset_has_no_test_subset_witness :
  split 9 (rev (range 9)) = Ok (rev (range 9), []).
Proof.
  apply (small_dataset_has_no_test_subset 9 (rev (range 9))).
  - lia.
  - apply Permutation_sym, Permutation_rev.
Defined.

Lemma DataLoader_returns (subset : list Z) :
  subset <> [] -> DataLoader subset = Ok subset.
Proof.
  destruct subset; [contradiction|reflexivity].
Qed.

(** The loaders are built exactly when both subsets have a sample. *)
Lemma make_loaders_returns (train_dataset test_dataset : list Z) :
  train_dataset <> [] -> test_dataset <> [] ->
  make_loaders train_dataset test_dataset = Ok (train_dataset, test_dataset).
Proof.
  intros Ntr Nte. unfold make_loaders.
  now rewrite (DataLoader_returns _ Ntr), (DataLoader_returns _ Nte).
Qed.

(** With fewer than ten samples the split leaves the test subset empty
    and the cell that builds the loaders raises a [ValueError]: the
    random sampler of a shuffling loader refuses a subset with no
    sample.  The training cell is left without loaders, so its division
    by [len(test_loader)] never sees an empty loader. *)
Theorem small_dataset_has_no_loaders (n : Z) (indices : list Z) :
  0 <= n < 10 -> Permutation indices (range n) ->
  exists train_dataset,
    split n indices = Ok (train_dataset, []) /\
    make_loaders train_dataset [] = Raise ValueError /\
    forall test_dataset r,
      make_loaders train_dataset test_dataset = Ok r ->
      test_dataset <> [] /\ train_dataset <> [].
Proof.
  intros Hn P. exists indices. split; [exact (split_of_small n indices Hn P)|].
  split.
  - unfold make_loaders, DataLoader. destruct indices; reflexivity.
  - intros test_dataset r. unfold make_loaders, DataLoader.
    destruct indices; [discriminate|].
    destruct test_dataset; [discriminate|]. intros _. split; discriminate.
Qed.

Lemma small_dataset_has_no_loaders_witness :
  exists train_dataset,
    split 9 (rev (range 9)) = Ok (train_dataset, []) /\
    make_loaders train_dataset [] = Raise ValueError /\
    forall test_dataset r,
      make_loaders train_dataset test_dataset = Ok r ->
      test_dataset <> [] /\ train_dataset <> [].
Proof.
  apply (small_dataset_has_no_loaders 9 (rev (range 9))).
  - lia.
  - apply Permutation_sym, Permutation_rev.
Defined.

Lemma counting_net_permutes : @reshuffle_permutes counting_net.
Proof. intros w subset. apply Permutation_refl. Qed.

(** * Batches *)

Lemma chunks_concat (fuel : nat) :
  forall order, (List.length order <= fuel)%nat ->
    List.concat (chunks fuel order) = order.
Proof.
  induction fuel as [|fuel IH]; intros order L.
  - destruct order; [reflexivity|cbn in L; lia].
  - destruct order as [|a order]; [reflexivity|].
    cbn [chunks List.concat]. rewrite IH.
    + apply firstn_skipn.
    + rewrite length_skipn. unfold batch_size. cbn [List.length] in *. lia.
Qed.

Lemma chunks_sizes (fuel : nat) :
  forall order b, In b (chunks fuel order) ->
    (1 <= List.length b <= batch_size)%nat.
Proof.
  induction fuel as [|fuel IH]; intros order b Hb; [destruct Hb|].
  destruct order as [|a order]; [destruct Hb|].
  cbn [chunks] in Hb. destruct Hb as [<- | Hb].
  - rewrite length_firstn. unfold batch_size. cbn [List.length]. lia.
  - exact (IH _ _ Hb).
Qed.

Lemma loader_len_step (m : nat) :
  (1 <= m)%nat -> loader_len m = S (loader_len (m - batch_size)).
Proof.
  unfold loader_len, batch_size. intros Hm.
  destruct (Nat.le_gt_cases 16 m) as [G|G].
  - replace (m + 16 - 1)%nat with (m - 16 + 16 - 1 + 1 * 16)%nat by lia.
    rewrite Nat.div_add by lia. lia.
  - replace (m - 16 + 16 - 1)%nat with 15%nat by lia.
    change (15 / 16)%nat with 0%nat.
    symmetry. apply (Nat.div_unique (m + 16 - 1) 16 1 (m - 1)); lia.
Qed.

Lemma chunks_count (fuel : nat) :
  forall order, (List.length order <= fuel)%nat ->
    List.length (chunks fuel order) = loader_len (List.length order).
Proof.
  induction fuel as [|fuel IH]; intros order L.
  - destruct order; [reflexivity|cbn in L; lia].
  - destruct order as [|a order]; [reflexivity|].
    cbn [chunks]. rewrite (loader_len_step (List.length (a :: order)))
      by (cbn [List.length]; lia).
    cbn [List.length]. rewrite IH.
    + now rewrite length_skipn.
    + rewrite length_skipn. unfold batch_size. cbn [List.length] in *. lia.
Qed.

(** One pass of a loader visits the samples in the order drawn, each
    once, in batches of one to sixteen samples, and yields as many
    batches as [len(loader)] says: the sum of the losses is divided by
    the number of losses summed. *)
Theorem batches_cover_the_subset `{Net} (laws : reshuffle_permutes)
  (w : net_world) (subset : list Z) :
  Permutation (List.concat (batches (snd (reshuffle w subset)))) subset /\
  (forall b, In b (batches (snd (reshuffle w subset))) ->
     (1 <= List.length b <= 16)%nat) /\
  List.length (batches (snd (reshuffle w subset)))
    = loader_len (List.length subset).
Proof.
  pose proof (laws w subset) as P. unfold batches. split; [|split].
  - now rewrite chunks_concat by lia.
  - intros b. apply chunks_sizes.
  - rewrite chunks_count by lia. now rewrite (Permutation_length P).
Qed.

Lemma batches_cover_the_subset_witness :
  Permutation
    (List.concat (batches (snd (@reshuffle counting_net 0%nat (range 40)))))
    (range 40) /\
  (forall b, In b (batches (snd (@reshuffle counting_net 0%nat (range 40)))) ->
     (1 <= List.length b <= 16)%nat) /\
  List.length (batches (snd (@reshuffle counting_net 0%nat (range 40))))
    = loader_len (List.length (range 40)).
Proof.
  exact (@batches_cover_the_subset counting_net counting_net_permutes
           0%nat (range 40)).
Defined.

(** * The values of a tensor *)

Lemma byte_reach_table : forallb byte_in_reach (range 256) = true.
Proof. vm_compute. reflexivity. Qed.

Lemma byte_reach (b : Z) : 0 <= b <= 255 -> byte_in_reach b = true.
Proof.
  intros H. pose proof byte_reach_table as T. rewrite forallb_forall in T.
  apply T. apply in_range. lia.
Qed.

Lemma band_value_is_byte (img : image) (row : list pixel) (px : pixel)
  (c : nat) :
  bytes_image img = true -> In row (rows img) -> In px row ->
  0 <= nth c px 0 <= 255.
Proof.
  unfold bytes_image. intros B Hr Hp.
  rewrite forallb_forall in B. specialize (B row Hr).
  rewrite forallb_forall in B. specialize (B px Hp).
  rewrite forallb_forall in B.
  destruct (nth_in_or_default c px 0) as [I | ->]; [|lia].
  specialize (B _ I). apply andb_prop in B as [B1 B2]. lia.
Qed.

Lemma normalized_plane_in_reach (m s : float) (c : nat) (img : image) :
  bytes_image img = true ->
  (forall b, 0 <= b <= 255 ->
     between tensor_floor tensor_ceiling (normalized_byte m s b) = true) ->
  forallb (forallb (between tensor_floor tensor_ceiling))
          (normalize_plane m s (band_plane c img)) = true.
Proof.
  intros B T. unfold normalize_plane, band_plane.
  apply forallb_forall. intros line Hl.
  apply in_map_iff in Hl as [l0 [<- Hl]].
  apply in_map_iff in Hl as [row [<- Hr]].
  apply forallb_forall. intros v Hv.
  apply in_map_iff in Hv as [u [<- Hu]].
  apply in_map_iff in Hu as [px [<- Hp]].
  apply (T (nth c px 0)). exact (band_value_is_byte img row px c B Hr Hp).
Qed.

(** When the jitter takes the picture and the resized picture holds
    bytes, every element of the returned
    tensor lies between the normalised zero byte of the first channel and
    the normalised full byte of the last. *)
Theorem pipeline_values_in_reach `{Vision} (laws : vision_laws)
  (cj : ColorJitter) (jit : jitter_draw) (img out : image) :
  bands img = 3%nat ->
  jitter cj jit img = Ok out ->
  bytes_image (resize out (224%nat, 224%nat)) = true ->
  exists t,
    pipeline cj jit img = Ok t /\
    values_between tensor_floor tensor_ceiling t = true.
Proof.
  intros B J Y. rewrite (pipeline_planes laws cj jit img out B J).
  eexists. split; [reflexivity|].
  unfold values_between. cbn [forallb].
  rewrite !normalized_plane_in_reach; try exact Y; try reflexivity;
    intros b Hb; pose proof (byte_reach b Hb) as R; unfold byte_in_reach in R;
    apply andb_prop in R as [R R3]; apply andb_prop in R as [R1 R2];
    assumption.
Qed.

Lemma red_blue_resized_bytes :
  bytes_image (resize_nearest red_blue (224%nat, 224%nat)) = true.
Proof. vm_compute. reflexivity. Qed.

Lemma pipeline_values_in_reach_witness :
  exists t,
    @pipeline demo_vision (color_jitter demo_dataset) tt red_blue = Ok t /\
    values_between tensor_floor tensor_ceiling t = true.
Proof.
  apply (@pipeline_values_in_reach demo_vision resize_nearest_laws
           (color_jitter demo_dataset) tt red_blue red_blue).
  - reflexivity.
  - reflexivity.
  - exact red_blue_resized_bytes.
Defined.

(** * Runs that finish *)

Lemma run_epochs_finishes `{Trainer} :
  (forall w, exists l, snd (train_pass w) = Ok l) ->
  (forall w, exists l, snd (test_pass w) = Ok l) ->
  forall epochs s, snd (run_epochs epochs s) = None.
Proof.
  intros Tr Te. induction epochs as [|a l IH]; intros s; [reflexivity|].
  cbn [run_epochs].
  assert (exists s', epoch_body a s = (s', None)) as [s' ->]; [|apply IH].
  unfold epoch_body.
  destruct (Tr (model s)) as [l1 E1].
  destruct (train_pass (model s)) as [w1 r1]. cbn [snd] in E1. subst r1.
  destruct (Te w1) as [l2 E2].
  destruct (test_pass w1) as [w2 r2]. cbn [snd] in E2. subst r2.
  destruct (l2 <? best_loss s)%float; eauto.
Qed.

Lemma run_batches_returns `{Net}
  (step : net_world -> list Z -> net_world * result float) :
  (forall w b, exists l, snd (step w b) = Ok l) ->
  forall loader w total,
    exists l, snd (run_batches step w total loader) = Ok l.
Proof.
  intros S. induction loader as [|b rest IH]; intros w total; cbn.
  - eauto.
  - destruct (S w b) as [l E].
    destruct (step w b) as [w' r]. cbn [snd] in E. subst r. apply IH.
Qed.

(** A pass over a loader with a sample returns when its batches do. *)
Lemma pass_returns `{Net} (laws : reshuffle_permutes)
  (step : net_world -> list Z -> net_world * result float)
  (loader : list Z) :
  loader <> [] ->
  (forall w b, exists l, snd (step w b) = Ok l) ->
  forall w, exists l, snd (pass step loader w) = Ok l.
Proof.
  intros N S w. unfold pass.
  destruct (reshuffle w loader) as [w1 order].
  destruct (run_batches_returns step S (batches order) w1 0%float)
    as [total E].
  destruct (run_batches step w1 0 (batches order)) as [w2 r].
  cbn [snd] in E |- *. subst r. cbn [bind].
  rewrite (loader_len_step (List.length loader)).
  - cbn [mean_loss]. eauto.
  - destruct loader; [contradiction|cbn; lia].
Qed.

(** With ten samples or more, and batches that do not raise, the loaders
    are built and the training cell runs its fifty epochs: both subsets
    are inhabited, no division by zero occurs, and fifty lines are
    printed. *)
Theorem training_runs_all_epochs `{Net} (laws : reshuffle_permutes)
  (n : Z) (indices : list Z) (w0 : net_world) (file0 : option net_params) :
  10 <= n < 2 ^ 51 ->
  Permutation indices (range n) ->
  (forall w b, exists l, snd (train_batch w b) = Ok l) ->
  (forall w b, exists l, snd (eval_batch w b) = Ok l) ->
  exists train_dataset test_dataset,
    split n indices = Ok (train_dataset, test_dataset) /\
    train_dataset <> [] /\ test_dataset <> [] /\
    make_loaders train_dataset test_dataset
      = Ok (train_dataset, test_dataset) /\
    snd (@train (notebook_trainer train_dataset test_dataset)
                NUM_EPOCHS w0 file0) = None /\
    List.length
      (history (fst (@train (notebook_trainer train_dataset test_dataset)
                            NUM_EPOCHS w0 file0))) = NUM_EPOCHS.
Proof.
  intros Hn P St Se.
  destruct (split_partition n (n / 10) indices) as [tr [te [E [Lte [Ltr _]]]]].
  - apply num_test_exact. lia.
  - pose proof (Z.div_pos n 10). pose proof (Z.div_le_upper_bound n 10 n). lia.
  - exact P.
  - assert (1 <= n / 10) as Q by (apply Z.div_le_lower_bound; lia).
    assert (10 * (n / 10) <= n) as Q' by (apply Z.mul_div_le; lia).
    assert (tr <> []) as Ntr by (intros ->; cbn in Ltr; lia).
    assert (te <> []) as Nte by (intros ->; cbn in Lte; lia).
    exists tr, te. split; [exact E|]. split; [exact Ntr|]. split; [exact Nte|].
    split; [exact (make_loaders_returns tr te Ntr Nte)|].
    assert (snd (@train (notebook_trainer tr te) NUM_EPOCHS w0 file0) = None)
      as C.
    { unfold train. apply run_epochs_finishes.
      - intros w. exact (pass_returns laws train_batch tr Ntr St w).
      - intros w. exact (pass_returns laws eval_batch te Nte Se w). }
    split; [exact C|].
    exact (proj1 (@history_of_complete_run (notebook_trainer tr te)
                    NUM_EPOCHS w0 file0 C)).
Qed.

Lemma training_runs_all_epochs_witness :
  exists train_dataset test_dataset,
    split 40 (rev (range 40)) = Ok (train_dataset, test_dataset) /\
    train_dataset <> [] /\ test_dataset <> [] /\
    make_loaders train_dataset test_dataset
      = Ok (train_dataset, test_dataset) /\
    snd (@train (@notebook_trainer counting_net train_dataset test_dataset)
                NUM_EPOCHS 0%nat None) = None /\
    List.length
      (history (fst (@train (@notebook_trainer counting_net
                               train_dataset test_dataset)
                            NUM_EPOCHS 0%nat None))) = NUM_EPOCHS.
Proof.
  apply (@training_runs_all_epochs counting_net counting_net_permutes
           40 (rev (range 40)) 0%nat None).
  - split; [lia | reflexivity].
  - apply Permutation_sym, Permutation_rev.
  - intros w b. eexists. reflexivity.
  - intros w b. eexists. reflexivity.
Defined.
